(** * vmtest/vm.py: running one command in a throw-away virtual machine

    A shallow embedding of [run_in_vm] and its helpers, and the
    properties of the host/guest status hand-shake, the QEMU version
    probe, the O_NOATIME preload shim and the clean-up of the temporary
    directory. *)

From Stdlib Require Import ZArith NArith Strings.Ascii Strings.String Strings.Byte List Bool Lia.
From stdpp Require Import gmap strings list fin_maps.

Import ListNotations.
Local Open Scope string_scope.
Local Open Scope list_scope.
Local Open Scope Z_scope.

(** ** Python values used by the module *)

Module Py.

(** Characters and bytes.  A [bytes]/[bytearray] value is a list of bytes;
    a [str] is a Rocq string. *)

Abbreviation bytes := (list byte).

Definition dquote : ascii := ascii_of_nat 34.
Definition squote : ascii := ascii_of_nat 39.
Definition backslash : ascii := ascii_of_nat 92.

Definition ord (c : ascii) : Z := Z.of_N (N_of_ascii c).
Definition byte_val (b : byte) : Z := Z.of_N (Byte.to_N b).

Definition encode (s : string) : bytes := list_byte_of_string s.
Definition decode (b : bytes) : string := string_of_list_byte b.

Definition is_digit (c : ascii) : bool := (48 <=? ord c) && (ord c <=? 57).

(** [Py_ISSPACE]: space, and [\t \n \v \f \r]. *)
Definition is_space (c : ascii) : bool :=
  (ord c =? 32) || ((9 <=? ord c) && (ord c <=? 13)).

(** [bytes.isdigit()]: every byte is an ASCII digit and there is at least
    one byte. *)
Definition bytes_isdigit (b : bytes) : bool :=
  match b with
  | [] => false
  | _ => forallb (fun x => is_digit (ascii_of_byte x)) b
  end.

(** *** [str(n)] for an integer *)

Definition digit_char (d : Z) : ascii := ascii_of_N (Z.to_N (48 + d)).

Fixpoint str_digits (fuel : nat) (n : Z) (acc : string) : string :=
  match fuel with
  | O => acc
  | S fuel' =>
      let acc' := String (digit_char (n mod 10)) acc in
      if n / 10 =? 0 then acc' else str_digits fuel' (n / 10) acc'
  end.

Definition str_nonneg (n : Z) : string :=
  str_digits (S (Z.to_nat (Z.log2 n))) n "".

Definition str (n : Z) : string :=
  if n <? 0 then String "-" (str_nonneg (- n)) else str_nonneg n.

(** *** [int(x)] for a [str], [bytes] or [bytearray] in base ten

    Surrounding white space is dropped, one sign is allowed, and the
    digits may be grouped by single underscores.  [None] stands for
    [ValueError]. *)

Fixpoint lstrip (s : string) : string :=
  match s with
  | String c s' => if is_space c then lstrip s' else s
  | EmptyString => s
  end.

Fixpoint rstrip (s : string) : string :=
  match s with
  | String c s' =>
      match rstrip s' with
      | EmptyString => if is_space c then EmptyString else String c EmptyString
      | r => String c r
      end
  | EmptyString => EmptyString
  end.

(** [int_digits acc s]: [s] is read right after a digit whose value is
    already in [acc]. *)
Fixpoint int_digits (acc : Z) (s : string) : option Z :=
  match s with
  | EmptyString => Some acc
  | String c s' =>
      if is_digit c then int_digits (10 * acc + (ord c - 48)) s'
      else if Ascii.eqb c "_" then
        match s' with
        | String d _ => if is_digit d then int_digits acc s' else None
        | EmptyString => None
        end
      else None
  end.

(** The longest text that [int] converts: [sys.get_int_max_str_digits()],
    which is 4300 unless the interpreter is set up otherwise.  A text with
    more digits is refused with [ValueError]; underscores do not count,
    leading zeros do. *)
Definition int_max_str_digits : Z := 4300.

Fixpoint digit_count (s : string) : Z :=
  match s with
  | String c s' => (if is_digit c then 1 else 0) + digit_count s'
  | EmptyString => 0
  end.

Definition int_unsigned (s : string) : option Z :=
  if int_max_str_digits <? digit_count s then None
  else
    match s with
    | String c s' => if is_digit c then int_digits (ord c - 48) s' else None
    | EmptyString => None
    end.

Definition int_of_str (s : string) : option Z :=
  match rstrip (lstrip s) with
  | String "-" s' => Z.opp <$> int_unsigned s'
  | String "+" s' => int_unsigned s'
  | s' => int_unsigned s'
  end.

Definition int_of_bytes (b : bytes) : option Z := int_of_str (decode b).

(** The text of the [ValueError] for a text of digits that is too long. *)
Definition int_limit_message (s : string) : string :=
  "Exceeds the limit (" +:+ str int_max_str_digits
  +:+ " digits) for integer string conversion: value has "
  +:+ str (digit_count s)
  +:+ " digits; use sys.set_int_max_str_digits() to increase the limit".

(** *** [repr] of a [bytearray] and slices of a [str] *)

Definition hex_digit (d : Z) : ascii :=
  if d <? 10 then ascii_of_N (Z.to_N (48 + d)) else ascii_of_N (Z.to_N (87 + d)).

Definition repr_quote (b : bytes) : ascii :=
  if existsb (fun x => Ascii.eqb (ascii_of_byte x) squote) b
     && negb (existsb (fun x => Ascii.eqb (ascii_of_byte x) dquote) b)
  then dquote else squote.

Definition repr_byte (x : byte) : string :=
  let c := ascii_of_byte x in
  if Ascii.eqb c squote || Ascii.eqb c backslash
  then String backslash (String c "")
  else if ord c =? 9 then String backslash "t"
  else if ord c =? 10 then String backslash "n"
  else if ord c =? 13 then String backslash "r"
  else if (ord c <? 32) || (127 <=? ord c)
  then String backslash
         (String "x" (String (hex_digit (ord c / 16))
                        (String (hex_digit (ord c mod 16)) "")))
  else String c "".

Definition escape (b : bytes) : string :=
  String.concat "" (map repr_byte b).

(** [repr] of a [bytearray]: a single quote and a backslash are escaped
    whichever quote is used. *)
Definition repr_bytearray (b : bytes) : string :=
  let q := repr_quote b in
  "bytearray(b" +:+ String q (escape b +:+ String q "") +:+ ")".

(** [s[start:-back]] for [start] and [back] not negative. *)
Definition slice (start back : nat) (s : string) : string :=
  substring start (String.length s - back - start) s.

(** [needle in haystack] on [str]. *)
Fixpoint contains (haystack needle : string) : bool :=
  String.prefix needle haystack
  || match haystack with
     | String _ h' => contains h' needle
     | EmptyString => false
     end.

(** Tuples of integers are compared like Python compares sequences: at
    the first place where they differ, and by length when one is a
    prefix of the other. *)
Fixpoint tuple_lt (a b : list Z) : bool :=
  match a, b with
  | [], [] => false
  | [], _ :: _ => true
  | _ :: _, [] => false
  | x :: a', y :: b' => if x =? y then tuple_lt a' b' else x <? y
  end.

Fixpoint tuple_ge (a b : list Z) : bool :=
  match a, b with
  | _, [] => true
  | [], _ :: _ => false
  | x :: a', y :: b' => if x =? y then tuple_ge a' b' else y <? x
  end.

End Py.

(** ** Paths, the file system and the effects of a run *)

(** A path is the list of its parts, as [pathlib] has them: an absolute
    path starts with the part ["/"]. *)
Abbreviation Path := (list string).

Definition path_str (p : Path) : string :=
  match p with
  | [] => "."
  | "/" :: rest => "/" +:+ String.concat "/" rest
  | _ => String.concat "/" p
  end.

(** [p / name] *)
Definition joinpath (p : Path) (name : string) : Path := (p ++ [name]).

(** [p.relative_to(base)]: [ValueError] ([None]) unless [base] is a prefix
    of [p]. *)
Fixpoint relative_to (p base : Path) : option Path :=
  match base, p with
  | [], _ => Some p
  | b :: base', x :: p' => if String.eqb b x then relative_to p' base' else None
  | _ :: _, [] => None
  end.

(** The non-empty prefixes of a path, shortest first: the directories that
    [mkdir(parents=True)] may have to create. *)
Fixpoint ancestors (p : Path) : list Path :=
  match p with
  | [] => []
  | x :: p' => [x] :: map (cons x) (ancestors p')
  end.

Inductive exn :=
| Exception (msg : string)
| LostVMError (msg : string)
| CalledProcessError (cmd : list string)
| OSError (msg : string)
| ValueError (msg : string).

Definition is_LostVMError (e : exn) : bool :=
  match e with LostVMError _ => true | _ => false end.

(** The keyword arguments that [run_in_vm] passes to [_INIT_TEMPLATE.format]. *)
Record init_args := {
  init_9PFS_MSIZE : Z;
  init_cwd : string;
  init_command : string;
  init_kdump_needs_nosmp : string;
}.

(** What one call of [sock.recv(4)] gives: some bytes (none at the end of
    the stream), [ConnectionResetError], or another error. *)
Inductive recv_result :=
| RecvBytes (buf : Py.bytes)
| RecvReset
| RecvError (e : exn).

Inductive accept_result := Accepted | AcceptTimeout.

(** The calls that leave the process, in the order they are made. *)
Inductive event :=
| EvCheckOutput (argv : list string)
| EvMkdir (p : Path)
| EvCompile (args : list string) (CPPFLAGS CFLAGS LDFLAGS LIBADD : string)
| EvWarning (msg : string)
| EvMkdtemp (p : Path)
| EvBind (p : Path)
| EvListen
| EvWriteInit (p : Path) (a : init_args)
| EvChmod (p : Path) (mode : Z)
| EvPopen (argv : list string) (env : gmap string string)
| EvSetTimeout (seconds : Z)
| EvAccept
| EvRecv (bufsize : Z)
| EvSockClose
| EvPopenWait
| EvServerSockClose
| EvRmtree (p : Path).

(** Everything the run asks of its surroundings: what the commands it
    starts print and whether they succeed, the environment, the name
    [mkdtemp] picks, what [Path.resolve] makes of a path, whether QEMU
    connects before [accept] times out, and what each [recv] gives.
    [qemu_version_output] is what [qemu-system-x86_64 -version] prints when
    it runs and ends with status zero; when it is [None],
    [qemu_installed] tells whether the program could be started at all.
    The calls that block ([accept], [recv] and waiting for the QEMU
    process) are taken to return; how long they take is not part of the
    model. *)
Record world := {
  qemu_version_output : option string;
  qemu_installed : bool;
  environ : gmap string string;
  getcwd : Path;
  module_dir : Path;
  dev_kvm_access : bool;
  nproc : Z;
  cc_succeeds : bool;
  now : Z;
  mkdtemp : Path;
  resolve : Path -> Path;
  popen_succeeds : bool;
  accept_outcome : accept_result;
  recv_script : list recv_result;
}.

(** The file system: the paths that exist, as the program names them,
    each with the time it was made or its content last written.  For a
    file this is its modification time, which is all that the program
    reads.  The time stamp that a directory gets when entries are made or
    removed in it is not kept: of a directory the model only says that it
    is there. *)
Record state := {
  fs : gmap Path Z;
  trace : list event;
}.

Inductive outcome (A : Type) :=
| Returns (a : A)
| Raises (e : exn).
Arguments Returns {A} a.
Arguments Raises {A} e.

Definition M (A : Type) : Type := state -> outcome A * state.

Definition ret {A} (a : A) : M A := fun s => (Returns a, s).
Definition raise {A} (e : exn) : M A := fun s => (Raises e, s).
Definition bind {A B} (m : M A) (k : A -> M B) : M B :=
  fun s => match m s with
           | (Returns a, s') => k a s'
           | (Raises e, s') => (Raises e, s')
           end.
Definition emit (e : event) : M unit :=
  fun s => (Returns tt, {| fs := fs s; trace := (trace s ++ [e]) |}).
Definition get_fs : M (gmap Path Z) := fun s => (Returns (fs s), s).
Definition set_fs (f : gmap Path Z) : M unit :=
  fun s => (Returns tt, {| fs := f; trace := trace s |}).

(** [try: body finally: cleanup], for a cleanup that does not raise. *)
Definition finally {A} (body : M A) (cleanup : M unit) : M A :=
  fun s => let (r, s1) := body s in (r, snd (cleanup s1)).

Declare Scope vm_scope.
Delimit Scope vm_scope with vm.
Notation "x <- m ;; k" := (bind m (fun x => k))
  (at level 100, m at next level, right associativity) : vm_scope.
Notation "m ;; k" := (bind m (fun _ => k))
  (at level 100, right associativity) : vm_scope.
Local Open Scope vm_scope.

Definition lift_option {A} (o : option A) (e : exn) : M A :=
  match o with Some a => ret a | None => raise e end.

(** A computation without effects that returns or raises. *)
Definition lift_outcome {A} (r : outcome A) : M A := fun s => (r, s).

(** ** The module *)

Definition _9PFS_MSIZE : Z := 1024 * 1024.

(** What line 123 of the init script, [echo "$rc" > "/dev/$vport"], writes
    to the port for the exit status [rc]. *)
Definition guest_status_message (rc : Z) : Py.bytes :=
  Py.encode (Py.str rc +:+ String (ascii_of_nat 10) "").

(** *** Helpers from outside the module *)

(** [shlex.quote]. *)
Definition shlex_safe (c : ascii) : bool :=
  let n := Py.ord c in
  ((48 <=? n) && (n <=? 57)) || ((65 <=? n) && (n <=? 90))
  || ((97 <=? n) && (n <=? 122))
  || existsb (Ascii.eqb c) (list_ascii_of_string "_@%+=:,./-").

Fixpoint shlex_escape (s : string) : string :=
  match s with
  | EmptyString => EmptyString
  | String c s' =>
      if Ascii.eqb c Py.squote
      then String Py.squote (String Py.dquote (String Py.squote
             (String Py.dquote (String Py.squote (shlex_escape s')))))
      else String c (shlex_escape s')
  end.

Definition shlex_quote (s : string) : string :=
  match s with
  | EmptyString => String Py.squote (String Py.squote "")
  | _ =>
      if forallb shlex_safe (list_ascii_of_string s) then s
      else String Py.squote (shlex_escape s +:+ String Py.squote "")
  end.

(** Modelled from the spec: [util.out_of_date], which is imported from a
    module that is not part of these sources.  The artifact is out of date
    when it is missing or older than its source. *)
Definition out_of_date (f : gmap Path Z) (target dep : Path) : bool :=
  match f !! target with
  | None => true
  | Some mtime =>
      match f !! dep with
      | Some dep_mtime => mtime <? dep_mtime
      | None => false
      end
  end.

(** [subprocess.check_output]: the text written by the command; or
    [CalledProcessError] when the command ends with a status other than
    zero; or [FileNotFoundError], an [OSError], when there is no such
    program to start. *)
Definition check_output (w : world) (argv : list string) : M string :=
  emit (EvCheckOutput argv) ;;
  lift_option (qemu_version_output w)
    (if qemu_installed w then CalledProcessError argv
     else OSError "FileNotFoundError").

(** *** [_compile]

    The compiler is called once with the given arguments and flags (the
    command line that [_compile] puts together from them and from the
    environment is not modelled); when it succeeds the file named after
    [-o] is new. *)
Definition _compile (w : world) (out : Path) (args : list string)
    (CPPFLAGS CFLAGS LDFLAGS LIBADD : string) : M unit :=
  emit (EvCompile args CPPFLAGS CFLAGS LDFLAGS LIBADD) ;;
  if cc_succeeds w
  then f <- get_fs ;; set_fs (<[out := now w]> f)
  else raise (CalledProcessError args).

(** [dir.mkdir(parents=True, exist_ok=True)] *)
Definition mkdir_parents (w : world) (dir : Path) : M unit :=
  emit (EvMkdir dir) ;;
  f <- get_fs ;;
  set_fs (foldr (fun p g => match g !! p with
                            | None => <[p := now w]> g
                            | Some _ => g
                            end) f (ancestors dir)).

Definition _build_onoatimehack (w : world) (dir : Path) : M Path :=
  mkdir_parents w dir ;;
  let onoatimehack_so := joinpath dir "onoatimehack.so" in
  onoatimehack_c <-
    lift_option (relative_to (joinpath (module_dir w) "onoatimehack.c") (getcwd w))
      (ValueError "is not in the subpath of") ;;
  f <- get_fs ;;
  (if out_of_date f onoatimehack_so onoatimehack_c
   then _compile w onoatimehack_so
          ["-o"; path_str onoatimehack_so; path_str onoatimehack_c]
          "-D_GNU_SOURCE" "-fPIC" "-shared" "-ldl"
   else ret tt) ;;
  ret onoatimehack_so.

(** *** The version probe

    [re.search] for the text [QEMU emulator version ] followed by group 1:
    one or more digits, then any number of times a dot and one or more
    digits.  The result is group 1 of the leftmost match. *)

(** The longest continuation of a match, read right after a digit. *)
Fixpoint version_rest (s : string) : string :=
  match s with
  | String c s' =>
      if Py.is_digit c then String c (version_rest s')
      else if Ascii.eqb c "." then
        match s' with
        | String d _ => if Py.is_digit d then String c (version_rest s') else ""
        | EmptyString => ""
        end
      else ""
  | EmptyString => ""
  end.

Fixpoint strip_prefix (p s : string) : option string :=
  match p, s with
  | EmptyString, _ => Some s
  | String a p', String b s' => if Ascii.eqb a b then strip_prefix p' s' else None
  | String _ _, EmptyString => None
  end.

Definition match_version_here (s : string) : option string :=
  match strip_prefix "QEMU emulator version " s with
  | Some (String c s') =>
      if Py.is_digit c then Some (String c (version_rest s')) else None
  | _ => None
  end.

Fixpoint search_version (s : string) : option string :=
  match match_version_here s with
  | Some g => Some g
  | None =>
      match s with
      | String _ s' => search_version s'
      | EmptyString => None
      end
  end.

(** [s.split(".")] *)
Fixpoint split_dots (s : string) : list string :=
  match s with
  | EmptyString => [""]
  | String c s' =>
      if Ascii.eqb c "." then "" :: split_dots s'
      else match split_dots s' with
           | x :: xs => String c x :: xs
           | [] => [String c ""]
           end
  end.

(** [tuple(int(x) for x in group.split("."))] *)
Definition version_tuple (group : string) : option (list Z) :=
  mapM Py.int_of_str (split_dots group).

(** [qemu_version >= (4, 2)]: multidevs was added in QEMU 4.2.0. *)
Definition supportsDeviceRemap (qemu_version : list Z) : bool :=
  Py.tuple_ge qemu_version [4; 2].

Definition multidevs (qemu_version : list Z) : string :=
  if supportsDeviceRemap qemu_version then ",multidevs=remap" else "".

(** [qemu_version < (5, 0, 1)]: the O_NOATIME fix of QEMU 5.1.0 was
    backported to 5.0.1. *)
Definition needsTimestampWorkaround (qemu_version : list Z) : bool :=
  Py.tuple_lt qemu_version [5; 0; 1].

(** *** The context managers of [run_in_vm] *)

(** [shutil.rmtree(d)]: [d] and everything below it is gone. *)
Definition rmtree (d : Path) : M unit :=
  emit (EvRmtree d) ;;
  f <- get_fs ;;
  set_fs (filter (fun kv => ¬ d `prefix_of` kv.1) f).

(** [with tempfile.TemporaryDirectory(...) as temp_dir]: the directory is
    made under a name that does not exist yet, and removed when the block
    is left, however it is left. *)
Definition with_TemporaryDirectory {A} (w : world) (body : Path -> M A) : M A :=
  let temp_dir := mkdtemp w in
  f <- get_fs ;;
  match f !! temp_dir with
  | Some _ => raise (OSError "FileExistsError")
  | None =>
      emit (EvMkdtemp temp_dir) ;;
      set_fs (<[temp_dir := now w]> f) ;;
      finally (body temp_dir) (rmtree temp_dir)
  end.

(** [with socket.socket(socket.AF_UNIX) as server_sock]: closed when the
    block is left. *)
Definition with_server_sock {A} (body : M A) : M A :=
  finally body (emit EvServerSockClose).

(** [with subprocess.Popen(argv, env=env)]: when the block is left the
    child is waited for. *)
Definition with_Popen {A} (w : world) (argv : list string)
    (env : gmap string string) (body : M A) : M A :=
  emit (EvPopen argv env) ;;
  if popen_succeeds w
  then finally body (emit EvPopenWait)
  else raise (OSError "FileNotFoundError").

(** [server_sock.bind(str(socket_path))] makes the socket file. *)
Definition sock_bind (w : world) (socket_path : Path) : M unit :=
  emit (EvBind socket_path) ;;
  f <- get_fs ;; set_fs (<[socket_path := now w]> f).

(** [open(init, "w")], [write] and [os.chmod(init, 0o755)].  [init] is
    what [resolve] made of [init_file]: another name of the same file,
    which is made in the temporary directory, where the file system of
    the model keeps it. *)
Definition write_init (w : world) (init_file init : Path) (a : init_args)
  : M unit :=
  emit (EvWriteInit init a) ;;
  f <- get_fs ;; set_fs (<[init_file := now w]> f) ;;
  emit (EvChmod init 493).

(** *** The status hand-shake *)

(** Lines 264 to 272: the loop around [sock.recv(4)].  The script lists
    what the calls give; once it is used up the peer has closed the
    connection and [recv] gives no bytes. *)
Fixpoint recv_loop (script : list recv_result) (status_buf : Py.bytes)
  : M Py.bytes :=
  emit (EvRecv 4) ;;
  match script with
  | [] => ret status_buf
  | RecvBytes [] :: _ => ret status_buf
  | RecvBytes buf :: script' => recv_loop script' (status_buf ++ buf)
  | RecvReset :: _ => ret status_buf
  | RecvError e :: _ => raise e
  end.

(** Lines 256 to 274. *)
Definition receive_status (w : world) : M Py.bytes :=
  emit (EvSetTimeout 5) ;;
  emit EvAccept ;;
  match accept_outcome w with
  | AcceptTimeout =>
      (* [gettimeout()] gives the float 5.0 *)
      raise (LostVMError "QEMU did not connect within 5.0 seconds")
  | Accepted => finally (recv_loop (recv_script w) []) (emit EvSockClose)
  end.

(** Lines 275 to 279. *)
Definition check_status (status_buf : Py.bytes) : outcome Z :=
  match status_buf with
  | [] => Raises (LostVMError "VM did not return status")
  | _ =>
      if negb (Py.byte_val (List.last status_buf x00) =? Py.ord (ascii_of_nat 10))
         || negb (Py.bytes_isdigit (removelast status_buf))
      then Raises (LostVMError ("VM returned invalid status: "
                                +:+ Py.slice 11 1 (Py.repr_bytearray status_buf)))
      else match Py.int_of_bytes status_buf with
           | Some n => Returns n
           | None =>
               (* digits and a newline: [int] only refuses them when there
                  are too many digits *)
               Raises (ValueError (Py.int_limit_message (Py.decode status_buf)))
           end
  end.

(** *** [run_in_vm] *)

Definition qemu_argv (kvm_args : list string) (nproc : Z) (multidevs : string)
    (kernel_dir socket_path init : Path) : list string :=
  (["qemu-system-x86_64"] ++ kvm_args ++
   ["-smp"; Py.str nproc; "-m"; "2G";
    "-nodefaults"; "-display"; "none"; "-serial"; "mon:stdio";
    "-no-reboot";
    "-virtfs";
    "local,id=root,path=/,mount_tag=/dev/root,security_model=none,readonly=on"
      +:+ multidevs;
    "-virtfs";
    "local,path=" +:+ path_str kernel_dir
      +:+ ",mount_tag=modules,security_model=none,readonly=on";
    "-device"; "virtio-rng-pci";
    "-device"; "virtio-serial";
    "-chardev"; "socket,id=vmtest,path=" +:+ path_str socket_path;
    "-device"; "virtserialport,chardev=vmtest,name=com.osandov.vmtest.0";
    "-kernel"; path_str (joinpath kernel_dir "vmlinuz");
    "-append";
    "rootfstype=9p rootflags=trans=virtio,cache=loose,msize="
      +:+ Py.str _9PFS_MSIZE
      +:+ " ro console=0,115200 panic=-1 crashkernel=256M init="
      +:+ path_str init]).

(** Lines 190 to 193: the environment of the QEMU process. *)
Definition qemu_env (w : world) (qemu_version : list Z) (build_dir : Path)
  : M (gmap string string) :=
  let env := environ w in
  if needsTimestampWorkaround qemu_version
  then
    onoatimehack_so <- _build_onoatimehack w build_dir ;;
    ret (<["LD_PRELOAD" := path_str onoatimehack_so +:+ ":"
                           +:+ default "" (env !! "LD_PRELOAD")]> env)
  else ret env.

(** The [ValueError] of line 184.  The parts of a match are digits, so
    the first part that [int] refuses is one with too many digits. *)
Definition version_tuple_error (group : string) : exn :=
  ValueError
    (Py.int_limit_message
       (default ""
          (List.find (fun x => match Py.int_of_str x with
                               | None => true
                               | Some _ => false
                               end) (split_dots group)))).

(** Lines 176 to 184. *)
Definition probe_version (w : world) : M (list Z) :=
  out <- check_output w ["qemu-system-x86_64"; "-version"] ;;
  match search_version out with
  | None => raise (Exception "could not determine QEMU version")
  | Some group1 =>
      lift_option (version_tuple group1) (version_tuple_error group1)
  end.

Definition run_in_vm (w : world) (command : string)
    (kernel_dir build_dir : Path) : M Z :=
  qemu_version <- probe_version w ;;
  env <- qemu_env w qemu_version build_dir ;;
  kvm_args <-
    (if dev_kvm_access w then ret ["-cpu"; "host"; "-enable-kvm"]
     else
       emit (EvWarning
               "warning: /dev/kvm cannot be accessed; falling back to emulation") ;;
       ret []) ;;
  with_TemporaryDirectory w (fun temp_path =>
    with_server_sock (
      let socket_path := joinpath temp_path "socket" in
      sock_bind w socket_path ;;
      emit EvListen ;;
      let init := resolve w (joinpath temp_path "init") in
      write_init w (joinpath temp_path "init") init
        {| init_9PFS_MSIZE := _9PFS_MSIZE;
           init_cwd := shlex_quote (path_str (getcwd w));
           init_command := shlex_quote command;
           init_kdump_needs_nosmp :=
             match kvm_args with
             | [] => "export KDUMP_NEEDS_NOSMP=1"
             | _ => ""
             end |} ;;
      status_buf <-
        with_Popen w
          (qemu_argv kvm_args (nproc w) (multidevs qemu_version)
             kernel_dir socket_path init)
          env (receive_status w) ;;
      lift_outcome (check_status status_buf))).

(** The world [w] with another history of the connection. *)
Definition with_recv_script (w : world) (script : list recv_result) : world :=
  {| qemu_version_output := qemu_version_output w;
     qemu_installed := qemu_installed w;
     environ := environ w;
     getcwd := getcwd w;
     module_dir := module_dir w;
     dev_kvm_access := dev_kvm_access w;
     nproc := nproc w;
     cc_succeeds := cc_succeeds w;
     now := now w;
     mkdtemp := mkdtemp w;
     resolve := resolve w;
     popen_succeeds := popen_succeeds w;
     accept_outcome := accept_outcome w;
     recv_script := script |}.

(** The run gets as far as an accepted connection: the version of QEMU is
    read, the shim is there when it is needed, the name of the temporary
    directory is free, QEMU starts and connects in time. *)
Definition reaches_handshake (w : world) (build_dir : Path) (s : state) : Prop :=
  exists qemu_version env s1 s2,
    probe_version w s = (Returns qemu_version, s1)
    /\ qemu_env w qemu_version build_dir s1 = (Returns env, s2)
    /\ fs s2 !! mkdtemp w = None
    /\ popen_succeeds w = true
    /\ accept_outcome w = Accepted.

(** The peer sends [chunks], one for each [recv], and then closes. *)
Definition sends_then_closes (chunks : list Py.bytes) (script : list recv_result)
  : Prop :=
  Forall (fun c => c <> []) chunks
  /\ exists rest, script = (map RecvBytes chunks ++ RecvBytes [] :: rest).

Definition newline : string := String (ascii_of_nat 10) "".

(** The received buffer [status_buf] ends the run with [LostVMError(msg)]. *)
Definition lost_with (status_buf : Py.bytes) (msg : string) : Prop :=
  check_status status_buf = Raises (LostVMError msg)
  /\ forall w command kernel_dir build_dir s chunks,
       reaches_handshake w build_dir s ->
       sends_then_closes chunks (recv_script w) ->
       concat chunks = status_buf ->
       fst (run_in_vm w command kernel_dir build_dir s) = Raises (LostVMError msg).

(** A run on a host with QEMU 4.2.1, where [/tmp] is a link to
    [/private/tmp] and the guest reports 255 in two pieces. *)
Definition example_world : world := {|
  qemu_version_output := Some "QEMU emulator version 4.2.1 (Debian 1:4.2-3)";
  qemu_installed := true;
  environ := <["LD_PRELOAD" := "/usr/lib/libfoo.so"]> {[ "PATH" := "/usr/bin:/bin" ]};
  getcwd := ["/"; "src"; "drgn"];
  module_dir := ["/"; "src"; "drgn"; "vmtest"];
  dev_kvm_access := true;
  nproc := 4;
  cc_succeeds := true;
  now := 100;
  mkdtemp := ["/"; "tmp"; "drgn-vmtest-k3x9"];
  resolve := fun p => match p with
                      | "/" :: "tmp" :: rest => "/" :: "private" :: "tmp" :: rest
                      | _ => p
                      end;
  popen_succeeds := true;
  accept_outcome := Accepted;
  recv_script := [RecvBytes (Py.encode "25");
                  RecvBytes (Py.encode ("5" +:+ newline));
                  RecvBytes []] |}.

Definition example_state : state := {| fs := ∅; trace := [] |}.

(** The world [w] with another answer of [qemu-system-x86_64 -version]. *)
Definition with_version_output (w : world) (out : option string) : world :=
  {| qemu_version_output := out;
     qemu_installed := qemu_installed w;
     environ := environ w;
     getcwd := getcwd w;
     module_dir := module_dir w;
     dev_kvm_access := dev_kvm_access w;
     nproc := nproc w;
     cc_succeeds := cc_succeeds w;
     now := now w;
     mkdtemp := mkdtemp w;
     resolve := resolve w;
     popen_succeeds := popen_succeeds w;
     accept_outcome := accept_outcome w;
     recv_script := recv_script w |}.

(** The version tuple that [run_in_vm] computes on the host [w]. *)
Definition qemu_version_of (w : world) : option (list Z) :=
  out ← qemu_version_output w; group1 ← search_version out; version_tuple group1.



(** The flags that [run_in_vm] derives from the text of a version:
    [multidevs] is used, and the shim is preloaded. *)
Definition capability_flags (version : string) : option (bool * bool) :=
  qemu_version ← version_tuple version;
  Some (supportsDeviceRemap qemu_version, needsTimestampWorkaround qemu_version).

(** The environment given to QEMU when the shim is preloaded. *)
Definition preload_env (w : world) (build_dir : Path) : gmap string string :=
  <["LD_PRELOAD" := path_str (joinpath build_dir "onoatimehack.so") +:+ ":"
                    +:+ default "" (environ w !! "LD_PRELOAD")]> (environ w).

Definition qemu_env_of (w : world) (qemu_version : list Z) (build_dir : Path)
  : gmap string string :=
  if needsTimestampWorkaround qemu_version then preload_env w build_dir
  else environ w.

(** [env] is the environment of the host but for [LD_PRELOAD], which is
    the path of the shim, a colon and what [LD_PRELOAD] was before. *)
Definition shim_preloaded (w : world) (build_dir : Path)
    (env : gmap string string) : Prop :=
  env !! "LD_PRELOAD"
  = Some (path_str (joinpath build_dir "onoatimehack.so") +:+ ":"
          +:+ match environ w !! "LD_PRELOAD" with
              | Some old => old
              | None => ""
              end)
  /\ forall name, name <> "LD_PRELOAD" -> env !! name = environ w !! name.

Definition not_popen (e : event) : Prop :=
  match e with EvPopen _ _ => False | _ => True end.

Definition not_mkdtemp (e : event) : Prop :=
  match e with EvMkdtemp _ => False | _ => True end.

(** The last things done are closing the listening socket and removing
    the temporary directory [d]. *)
Definition ends_with_cleanup (d : Path) (evs : list event) : Prop :=
  exists before, evs = before ++ [EvServerSockClose; EvRmtree d].

(** [m] either makes no temporary directory or ends with the clean-up. *)
Definition cleans_up {A} (d : Path) (m : M A) : Prop :=
  forall s, exists evs,
    trace (snd (m s)) = trace s ++ evs
    /\ (Forall not_mkdtemp evs \/ ends_with_cleanup d evs).

(** [emits P Q m]: wherever [m] runs, it only adds events to the trace,
    each of them satisfies [P], and a value that [m] returns satisfies [Q]. *)
Definition emits {A} (P : event -> Prop) (Q : A -> Prop) (m : M A) : Prop :=
  forall s, exists evs,
    trace (snd (m s)) = trace s ++ evs
    /\ Forall P evs
    /\ forall a, fst (m s) = Returns a -> Q a.

(** ** Notions used to state further properties *)

(** A text of one or more ASCII digits, and the number it is read as. *)
Definition all_digits (s : string) : bool :=
  match s with
  | EmptyString => false
  | _ => forallb Py.is_digit (list_ascii_of_string s)
  end.

(** A text with more characters than [int] converts digits. *)
Definition too_long (s : string) : bool :=
  Py.int_max_str_digits <? Z.of_nat (String.length s).

Definition digits_value (s : string) : Z :=
  fold_left (fun a c => 10 * a + (Py.ord c - 48)) (list_ascii_of_string s) 0.

(** A version as QEMU prints it: the parts in decimal, with dots between. *)
Definition render_version (v : list Z) : string :=
  String.concat "." (map Py.str v).

(** The text after a version does not go on like a version: it does not
    start with a digit, nor with a dot and a digit. *)
Definition ends_version (rest : string) : bool :=
  match rest with
  | EmptyString => true
  | String c rest' =>
      negb (Py.is_digit c)
      && negb (Ascii.eqb c "."
               && match rest' with
                  | String d _ => Py.is_digit d
                  | EmptyString => false
                  end)
  end.

(** The events of a run, by the part of [run_in_vm] that makes them. *)
Definition setup_event (e : event) : Prop :=
  match e with
  | EvCheckOutput _ | EvMkdir _ | EvCompile _ _ _ _ _ | EvWarning _ => True
  | _ => False
  end.

Definition kvm_args_of (w : world) : list string :=
  if dev_kvm_access w then ["-cpu"; "host"; "-enable-kvm"] else [].

Definition init_args_of (w : world) (command : string) : init_args :=
  {| init_9PFS_MSIZE := _9PFS_MSIZE;
     init_cwd := shlex_quote (path_str (getcwd w));
     init_command := shlex_quote command;
     init_kdump_needs_nosmp :=
       match kvm_args_of w with
       | [] => "export KDUMP_NEEDS_NOSMP=1"
       | _ => ""
       end |}.

(** Lines 204 to 255: from the temporary directory to the start of QEMU. *)
Definition launch_events (w : world) (command : string) (kernel_dir : Path)
    (qemu_version : list Z) (env : gmap string string) : list event :=
  let temp_path := mkdtemp w in
  let init := resolve w (joinpath temp_path "init") in
  [EvMkdtemp temp_path;
   EvBind (joinpath temp_path "socket");
   EvListen;
   EvWriteInit init (init_args_of w command);
   EvChmod init 493;
   EvPopen (qemu_argv (kvm_args_of w) (nproc w) (multidevs qemu_version)
              kernel_dir (joinpath temp_path "socket") init) env].

(** Lines 256 to 274, for [recvs] calls of [recv], and the wait for QEMU
    at the end of the [Popen] block; nothing when QEMU did not start. *)
Definition handshake_events (w : world) (recvs : nat) : list event :=
  if popen_succeeds w
  then [EvSetTimeout 5; EvAccept]
       ++ match accept_outcome w with
          | Accepted => repeat (EvRecv 4) recvs ++ [EvSockClose]
          | AcceptTimeout => []
          end
       ++ [EvPopenWait]
  else [].

Definition is_popen (e : event) : bool :=
  match e with EvPopen _ _ => true | _ => false end.

Definition is_accept (e : event) : bool :=
  match e with EvAccept => true | _ => false end.

(** The events that a run adds to the trace. *)
Definition run_events (w : world) (command : string)
    (kernel_dir build_dir : Path) (s : state) : list event :=
  drop (length (trace s))
    (trace (snd (run_in_vm w command kernel_dir build_dir s))).

(** The version that QEMU reports on the host [w] is one that needs the
    shim. *)
Definition shim_needed (w : world) : Prop :=
  exists qemu_version,
    qemu_version_of w = Some qemu_version
    /\ needsTimestampWorkaround qemu_version = true.

(** The events of lines 176 to 193: the version query and, when the shim
    is needed, its build in [build_dir]. *)
Definition build_event (w : world) (build_dir : Path) (e : event) : Prop :=
  match e with
  | EvCheckOutput argv => argv = ["qemu-system-x86_64"; "-version"]
  | EvMkdir dir => shim_needed w /\ dir = build_dir
  | EvCompile args _ _ _ _ =>
      shim_needed w
      /\ exists onoatimehack_c,
           args = ["-o"; path_str (joinpath build_dir "onoatimehack.so");
                   onoatimehack_c]
  | _ => False
  end.

(** The calls that make, change or remove something in the file system
    name a path of the build directory or of the temporary directory. *)
Definition writes_within (w : world) (build_dir : Path) (e : event) : Prop :=
  match e with
  | EvMkdir dir => dir = build_dir
  | EvCompile args _ _ _ _ =>
      exists onoatimehack_c,
        args = ["-o"; path_str (joinpath build_dir "onoatimehack.so");
                onoatimehack_c]
  | EvMkdtemp p | EvRmtree p => p = mkdtemp w
  | EvBind p => p = joinpath (mkdtemp w) "socket"
  | EvWriteInit p _ | EvChmod p _ => p = resolve w (joinpath (mkdtemp w) "init")
  | _ => True
  end.

(** The same without a build: all that is written is in the temporary
    directory. *)
Definition writes_within_temp (w : world) (e : event) : Prop :=
  match e with
  | EvMkdir _ | EvCompile _ _ _ _ _ => False
  | EvMkdtemp p | EvRmtree p => p = mkdtemp w
  | EvBind p => p = joinpath (mkdtemp w) "socket"
  | EvWriteInit p _ | EvChmod p _ => p = resolve w (joinpath (mkdtemp w) "init")
  | _ => True
  end.

(** Lines 195 to 202: what is printed when [/dev/kvm] cannot be used. *)
Definition kvm_warning (w : world) : list event :=
  if dev_kvm_access w then []
  else [EvWarning
          "warning: /dev/kvm cannot be accessed; falling back to emulation"].

(** Lines 223 to 279, once the init script is written: what the start of
    QEMU, [accept], the receive loop and the check of the status give. *)
Definition handshake_result (w : world) : outcome Z :=
  if popen_succeeds w
  then match accept_outcome w with
       | AcceptTimeout =>
           Raises (LostVMError "QEMU did not connect within 5.0 seconds")
       | Accepted =>
           match fst (recv_loop (recv_script w) [] {| fs := ∅; trace := [] |}) with
           | Returns status_buf => check_status status_buf
           | Raises e => Raises e
           end
       end
  else Raises (OSError "FileNotFoundError").

(** What is released at the end of a run that accepted a connection,
    innermost first. *)
Definition release_events (w : world) : list event :=
  [EvSockClose; EvPopenWait; EvServerSockClose; EvRmtree (mkdtemp w)].

Definition is_mkdtemp (e : event) : bool :=
  match e with EvMkdtemp _ => true | _ => false end.

(** What the receive loop collects on the host [w]. *)
Definition received (w : world) : outcome Py.bytes :=
  fst (recv_loop (recv_script w) [] {| fs := ∅; trace := [] |}).

(** A [recv] that does not raise [LostVMError] (the error of this module,
    which a socket never raises). *)
Definition recv_not_lost (r : recv_result) : Prop :=
  match r with
  | RecvError e => is_LostVMError e = false
  | _ => True
  end.

(** The run gets as far as making the temporary directory: the version
    of QEMU is read, the shim is there when it is needed, and the name of
    the temporary directory is free. *)
Definition reaches_launch (w : world) (build_dir : Path) (s : state) : Prop :=
  exists qemu_version env s1 s2,
    probe_version w s = (Returns qemu_version, s1)
    /\ qemu_env w qemu_version build_dir s1 = (Returns env, s2)
    /\ fs s2 !! mkdtemp w = None.

(** *** [shlex.split]

    The reader of [shlex] in POSIX mode as [shlex.split] sets it up:
    white space ends a word, there are no comments and no punctuation, a
    backslash escapes the next character, single quotes keep everything,
    and between double quotes a backslash escapes only a double quote or a
    backslash.  [None] stands for [ValueError]. *)

Inductive shlex_state :=
| ShWhitespace                           (* state [' '] *)
| ShWord                                 (* state ['a'] *)
| ShQuote (q : ascii)                    (* state is the quote [q] *)
| ShEscape (escapedstate : shlex_state). (* state is the backslash *)

Definition shlex_whitespace (c : ascii) : bool :=
  existsb (Ascii.eqb c)
    [" "%char; ascii_of_nat 9; ascii_of_nat 13; ascii_of_nat 10].

Definition shlex_is_quote (c : ascii) : bool :=
  Ascii.eqb c Py.squote || Ascii.eqb c Py.dquote.

(** The end of [read_token]: a token that is empty and was not quoted is
    the end of the input, and the iteration over the tokens stops. *)
Definition shlex_is_eof (token : string) (quoted : bool) : bool :=
  negb quoted && match token with EmptyString => true | _ => false end.

Fixpoint shlex_read (s : string) (state : shlex_state) (token : string)
    (quoted : bool) (tokens : list string) : option (list string) :=
  match s with
  | EmptyString =>
      match state with
      | ShWhitespace | ShWord =>
          Some (if shlex_is_eof token quoted then tokens else tokens ++ [token])
      | ShQuote _ => None      (* No closing quotation *)
      | ShEscape _ => None     (* No escaped character *)
      end
  | String nextchar s' =>
      match state with
      | ShWhitespace =>
          if shlex_whitespace nextchar then
            if shlex_is_eof token quoted
            then shlex_read s' ShWhitespace token quoted tokens
            else shlex_read s' ShWhitespace "" false (tokens ++ [token])
          else if Ascii.eqb nextchar Py.backslash then
            shlex_read s' (ShEscape ShWord) token quoted tokens
          else if shlex_is_quote nextchar then
            shlex_read s' (ShQuote nextchar) token quoted tokens
          else shlex_read s' ShWord (String nextchar "") quoted tokens
      | ShQuote q =>
          if Ascii.eqb nextchar q then shlex_read s' ShWord token true tokens
          else if Ascii.eqb nextchar Py.backslash && Ascii.eqb q Py.dquote then
            shlex_read s' (ShEscape (ShQuote q)) token true tokens
          else shlex_read s' (ShQuote q) (token +:+ String nextchar "") true tokens
      | ShEscape escapedstate =>
          let token :=
            match escapedstate with
            | ShQuote q =>
                if negb (Ascii.eqb nextchar Py.backslash)
                   && negb (Ascii.eqb nextchar q)
                then token +:+ String Py.backslash ""
                else token
            | _ => token
            end in
          shlex_read s' escapedstate (token +:+ String nextchar "") quoted tokens
      | ShWord =>
          if shlex_whitespace nextchar then
            if shlex_is_eof token quoted
            then shlex_read s' ShWhitespace token quoted tokens
            else shlex_read s' ShWhitespace "" false (tokens ++ [token])
          else if shlex_is_quote nextchar then
            shlex_read s' (ShQuote nextchar) token quoted tokens
          else if Ascii.eqb nextchar Py.backslash then
            shlex_read s' (ShEscape ShWord) token quoted tokens
          else shlex_read s' ShWord (token +:+ String nextchar "") quoted tokens
      end
  end.

(** [shlex.split(s)] *)
Definition shlex_split (s : string) : option (list string) :=
  shlex_read s ShWhitespace "" false [].

(** Line 149: the command as [_compile] prints it. *)
Definition compile_line (cmd : list string) : string :=
  String.concat " " (map shlex_quote cmd).

(** Lines 116 and 118 of the init script, as [format] fills them in. *)
Definition init_cd_line (a : init_args) : string := "cd " +:+ init_cwd a.

Definition init_command_line (a : init_args) : string :=
  "sh -c " +:+ init_command a.

(** *** The device nodes of the guest, lines 81 to 84 of the init script

    The parameter expansions of the shell that take the third field of a
    line of [modules.devname] apart. *)

(** [${node#?}]: without the first character. *)
Definition sh_drop_char (s : string) : string :=
  match s with
  | String _ rest => rest
  | EmptyString => EmptyString
  end.

Definition has_colon (s : string) : bool :=
  existsb (Ascii.eqb ":") (list_ascii_of_string s).

(** [${dev%%:*}]: without the longest end that starts with a colon. *)
Fixpoint sh_before_colon (s : string) : string :=
  match s with
  | String c rest => if Ascii.eqb c ":" then "" else String c (sh_before_colon rest)
  | EmptyString => ""
  end.

(** [${dev##*:}]: without the longest start that ends with a colon. *)
Fixpoint sh_after_colon (s : string) : string :=
  match s with
  | String c rest =>
      if has_colon rest then sh_after_colon rest
      else if Ascii.eqb c ":" then rest else s
  | EmptyString => ""
  end.

Fixpoint strip_suffix (s suffix : string) : option string :=
  if String.eqb s suffix then Some ""
  else match s with
       | String c rest => String c <$> strip_suffix rest suffix
       | EmptyString => None
       end.

(** [${node%"${dev}"}]: without the end [dev], when it ends so. *)
Definition sh_strip_suffix (node dev : string) : string :=
  default node (strip_suffix node dev).

(** The arguments of [mknod] for the field [node]: type, major, minor. *)
Definition devname_fields (node : string) : string * string * string :=
  let dev := sh_drop_char node in
  let major := sh_before_colon dev in
  let minor := sh_after_colon dev in
  let type := sh_strip_suffix node dev in
  (type, major, minor).

(** *** The entry point, lines 331 to 336 *)

Record main_args := {
  args_directory : Path;
  args_lost_status : Z;
  args_command : list string;
}.

(** Line 332. *)
Definition main_command (command : list string) : string :=
  match command with
  | [] => "sh -i"
  | _ => String.concat " " command
  end.

(** Lines 331 to 336.  [sys.exit(status)] is a result: the status, and
    what was printed on the standard error before. *)
Definition main_run (w : world) (kernel_dir : Path) (args : main_args)
  : M (Z * option string) :=
  fun s =>
    match run_in_vm w (main_command (args_command args)) kernel_dir
            (args_directory args) s with
    | (Returns status, s') => (Returns (status, None), s')
    | (Raises (LostVMError msg), s') =>
        (Returns (args_lost_status args,
                  Some ("error: " +:+ msg +:+ newline)), s')
    | (Raises e, s') => (Raises e, s')
    end.

(** ** The receive loop *)

Lemma recv_loop_chunks chunks close rest buf s :
  Forall (fun c => c <> []) chunks ->
  close = RecvBytes [] \/ close = RecvReset ->
  fst (recv_loop (map RecvBytes chunks ++ close :: rest) buf s)
  = Returns (buf ++ concat chunks).
Proof.
  intros Hne Hclose. revert buf s.
  induction Hne as [|c chunks Hc _ IH]; intros buf s.
  - simpl. rewrite app_nil_r.
    destruct Hclose as [-> | ->]; reflexivity.
  - destruct c as [|b c]; [congruence|].
    change (fst (recv_loop (map RecvBytes chunks ++ close :: rest)
                   (buf ++ b :: c)
                   {| fs := fs s; trace := trace s ++ [EvRecv 4] |})
            = Returns (buf ++ concat ((b :: c) :: chunks))).
    rewrite IH. simpl. now rewrite <- app_assoc.
Qed.

(** A reset and a close at the same place leave the loop in the same way. *)
Lemma recv_loop_reset_close chunks rest rest' buf s :
  recv_loop (map RecvBytes chunks ++ RecvReset :: rest) buf s
  = recv_loop (map RecvBytes chunks ++ RecvBytes [] :: rest') buf s.
Proof.
  revert buf s. induction chunks as [|c chunks IH]; intros buf s.
  - reflexivity.
  - destruct c as [|b c]; [reflexivity|].
    change (recv_loop (map RecvBytes chunks ++ RecvReset :: rest) (buf ++ b :: c)
              {| fs := fs s; trace := trace s ++ [EvRecv 4] |}
            = recv_loop (map RecvBytes chunks ++ RecvBytes [] :: rest')
                (buf ++ b :: c)
                {| fs := fs s; trace := trace s ++ [EvRecv 4] |}).
    apply IH.
Qed.

(** What the loop gives does not depend on the state it starts in. *)
Lemma recv_loop_outcome script buf s s' :
  fst (recv_loop script buf s) = fst (recv_loop script buf s').
Proof.
  revert buf s s'. induction script as [|r script IH]; intros buf s s'.
  - reflexivity.
  - destruct r as [[|b c]| |e]; try reflexivity.
    apply (IH (buf ++ b :: c)
              {| fs := fs s; trace := trace s ++ [EvRecv 4] |}
              {| fs := fs s'; trace := trace s' ++ [EvRecv 4] |}).
Qed.

(** Equal parts give equal runs. *)
Lemma bind_ext {A B} (m : M A) (k1 k2 : A -> M B) s :
  (forall a s1, k1 a s1 = k2 a s1) -> bind m k1 s = bind m k2 s.
Proof. intros H. unfold bind. destruct (m s) as [[a|e] s1]; [apply H|reflexivity]. Qed.

Lemma bind_ext_l {A B} (m1 m2 : M A) (k : A -> M B) s :
  m1 s = m2 s -> bind m1 k s = bind m2 k s.
Proof. intros H. unfold bind. now rewrite H. Qed.

Lemma finally_ext {A} (b1 b2 : M A) (cleanup : M unit) s :
  (forall s1, b1 s1 = b2 s1) -> finally b1 cleanup s = finally b2 cleanup s.
Proof. intros H. unfold finally. now rewrite H. Qed.

Lemma with_TemporaryDirectory_ext {A} w (b1 b2 : Path -> M A) s :
  (forall d s1, b1 d s1 = b2 d s1) ->
  with_TemporaryDirectory w b1 s = with_TemporaryDirectory w b2 s.
Proof.
  intros H. unfold with_TemporaryDirectory.
  apply bind_ext. intros f s1. destruct (f !! mkdtemp w); [reflexivity|].
  apply bind_ext. intros _ s2. apply bind_ext. intros _ s3.
  apply finally_ext. intros. apply H.
Qed.

Lemma with_Popen_ext {A} w argv env (b1 b2 : M A) s :
  (forall s1, b1 s1 = b2 s1) ->
  with_Popen w argv env b1 s = with_Popen w argv env b2 s.
Proof.
  intros H. unfold with_Popen. apply bind_ext. intros _ s1.
  destruct (popen_succeeds w); [|reflexivity]. now apply finally_ext.
Qed.

(** ** From the hand-shake to the result of the run *)

Lemma run_in_vm_handshake w command kernel_dir build_dir s :
  reaches_handshake w build_dir s ->
  fst (run_in_vm w command kernel_dir build_dir s)
  = match fst (recv_loop (recv_script w) [] s) with
    | Returns status_buf => check_status status_buf
    | Raises e => Raises e
    end.
Proof.
  intros (v & env & s1 & s2 & Hprobe & Henv & Hfree & Hpopen & Hacc).
  unfold run_in_vm, bind at 1. rewrite Hprobe.
  unfold bind at 1. rewrite Henv.
  set (after := fun kvm_args : list string => with_TemporaryDirectory w _).
  assert (Hafter : forall kvm_args s3, fs s3 = fs s2 ->
            fst (after kvm_args s3)
            = match fst (recv_loop (recv_script w) [] s) with
              | Returns status_buf => check_status status_buf
              | Raises e => Raises e
              end).
  { intros kvm_args s3 Hfs. unfold after, with_TemporaryDirectory.
    unfold bind at 1, get_fs. rewrite Hfs, Hfree.
    unfold finally, with_server_sock, with_Popen, receive_status,
      sock_bind, write_init, finally, bind, emit, get_fs, set_fs, ret, raise,
      lift_outcome.
    cbn [fst snd fs trace]. rewrite Hpopen, Hacc.
    match goal with
    | |- context [recv_loop (recv_script w) [] ?st] =>
        rewrite (recv_loop_outcome (recv_script w) [] s st);
        destruct (recv_loop (recv_script w) [] st) as [[buf|e] st'] eqn:E
    end; reflexivity. }
  unfold bind at 1. destruct (dev_kvm_access w).
  - unfold ret. apply Hafter. reflexivity.
  - unfold bind, emit, ret. apply Hafter. reflexivity.
Qed.

Lemma run_in_vm_received w command kernel_dir build_dir s chunks :
  reaches_handshake w build_dir s ->
  sends_then_closes chunks (recv_script w) ->
  fst (run_in_vm w command kernel_dir build_dir s) = check_status (concat chunks).
Proof.
  intros Hreach [Hne [rest Hscript]].
  rewrite (run_in_vm_handshake _ _ _ _ _ Hreach), Hscript.
  rewrite (recv_loop_chunks chunks (RecvBytes []) rest [] s Hne (or_introl eq_refl)).
  reflexivity.
Qed.

(** ** The status message *)

Lemma check_status_0_255 :
  forallb (fun k => match check_status (guest_status_message (Z.of_nat k)) with
                    | Returns m => m =? Z.of_nat k
                    | Raises _ => false
                    end) (seq 0 256) = true.
Proof. vm_compute. reflexivity. Qed.

Lemma check_status_guest_message n :
  0 <= n <= 255 -> check_status (guest_status_message n) = Returns n.
Proof.
  intros Hn.
  pose proof (proj1 (forallb_forall _ _) check_status_0_255 (Z.to_nat n)) as H.
  assert (Hin : In (Z.to_nat n) (seq 0 256)) by (apply in_seq; lia).
  specialize (H Hin). cbv beta in H.
  rewrite Z2Nat.id in H by lia.
  destruct (check_status (guest_status_message n)) as [m|e]; [|discriminate].
  apply Z.eqb_eq in H. now subst.
Qed.

(** C1.  For every exit status [n] from 0 to 255: when the guest writes
    [str(n)] and one newline to the port and the connection then closes,
    the check of the received buffer accepts it, and the run returns
    exactly [n], in however many pieces the bytes arrive. *)
Theorem status_round_trip n chunks w command kernel_dir build_dir s :
  0 <= n <= 255 ->
  concat chunks = guest_status_message n ->
  sends_then_closes chunks (recv_script w) ->
  reaches_handshake w build_dir s ->
  check_status (guest_status_message n) = Returns n
  /\ fst (run_in_vm w command kernel_dir build_dir s) = Returns n.
Proof.
  intros Hn Hmsg Hsend Hreach.
  split; [now apply check_status_guest_message|].
  rewrite (run_in_vm_received _ _ _ _ _ chunks Hreach Hsend), Hmsg.
  now apply check_status_guest_message.
Qed.

Lemma example_reaches_handshake script :
  reaches_handshake (with_recv_script example_world script) ["build"; "vmtest"]
    example_state.
Proof. do 4 eexists. repeat split; reflexivity. Qed.

Lemma status_round_trip_witness :
  check_status (guest_status_message 255) = Returns 255
  /\ fst (run_in_vm example_world "exit 255" ["/"; "boot"] ["build"; "vmtest"]
            example_state) = Returns 255.
Proof.
  apply (status_round_trip 255
           [Py.encode "25"; Py.encode ("5" +:+ newline)]
           example_world "exit 255" ["/"; "boot"] ["build"; "vmtest"]
           example_state).
  - lia.
  - reflexivity.
  - split; [repeat constructor; discriminate | exists []; reflexivity].
  - exact (example_reaches_handshake (recv_script example_world)).
Defined.

Lemma lost_with_intro status_buf msg :
  check_status status_buf = Raises (LostVMError msg) -> lost_with status_buf msg.
Proof.
  intros H. split; [exact H|].
  intros w command kernel_dir build_dir s chunks Hreach Hsend <-.
  now rewrite (run_in_vm_received _ _ _ _ _ chunks Hreach Hsend).
Qed.

(** C2.  Each of the buffers: empty, [abc] and a newline, [12] without
    a newline, and [1], newline, [2], newline, ends the run with a
    [LostVMError] and not with an exit status.  The message for the three
    that are not empty holds the offending bytes, written as [repr] writes
    them: printable bytes as they are and a newline as a backslash and
    the letter n. *)
Theorem malformed_status_rejected :
  lost_with (Py.encode "") "VM did not return status"
  /\ lost_with (Py.encode ("abc" +:+ newline))
       "VM returned invalid status: 'abc\n'"
  /\ lost_with (Py.encode "12") "VM returned invalid status: '12'"
  /\ lost_with (Py.encode ("1" +:+ newline +:+ "2" +:+ newline))
       "VM returned invalid status: '1\n2\n'"
  /\ Forall (fun status_buf =>
               forall msg, check_status status_buf = Raises (LostVMError msg) ->
                 Py.contains msg (Py.escape status_buf) = true)
       [Py.encode ("abc" +:+ newline); Py.encode "12";
        Py.encode ("1" +:+ newline +:+ "2" +:+ newline)].
Proof.
  repeat split; try (apply lost_with_intro; reflexivity).
  repeat constructor; intros msg H; vm_compute in H; injection H as <-;
    reflexivity.
Qed.

Lemma malformed_status_rejected_witness :
  fst (run_in_vm
         (with_recv_script example_world
            [RecvBytes (Py.encode "abc"); RecvBytes (Py.encode newline);
             RecvBytes []])
         "true" ["/"; "boot"] ["build"; "vmtest"] example_state)
  = Raises (LostVMError "VM returned invalid status: 'abc\n'").
Proof.
  refine (proj2 (proj1 (proj2 malformed_status_rejected)) _ _ _ _ _
            [Py.encode "abc"; Py.encode newline] _ _ _).
  - apply example_reaches_handshake.
  - split; [repeat constructor; discriminate|].
    exists []. reflexivity.
  - reflexivity.
Defined.

(** C9.  A buffer that is one newline is not taken for a status: what is
    before the newline is empty, and [isdigit] is false on the empty
    bytes.  The run ends with the invalid status error, not with the
    error for a missing status and not with a number. *)
Theorem lone_newline_is_invalid_status :
  removelast (Py.encode newline) = []
  /\ Py.bytes_isdigit [] = false
  /\ lost_with (Py.encode newline) "VM returned invalid status: '\n'".
Proof.
  repeat split. apply lost_with_intro. reflexivity.
Qed.

Lemma lone_newline_is_invalid_status_witness :
  fst (run_in_vm
         (with_recv_script example_world
            [RecvBytes (Py.encode newline); RecvBytes []])
         "true" ["/"; "boot"] ["build"; "vmtest"] example_state)
  = Raises (LostVMError "VM returned invalid status: '\n'").
Proof.
  refine (proj2 (proj2 (proj2 lone_newline_is_invalid_status)) _ _ _ _ _
            [Py.encode newline] _ _ _).
  - apply example_reaches_handshake.
  - split; [repeat constructor; discriminate|].
    exists []. reflexivity.
  - reflexivity.
Defined.

(** C8.  A connection reset while the host reads ends the collecting like
    a close at the same place: the run is the same in its result, its
    events and its files; no error is raised for the reset, and the bytes
    received before it are checked like any received status. *)
Theorem connection_reset_like_close w chunks rest command kernel_dir build_dir s :
  (forall rest',
      run_in_vm (with_recv_script w (map RecvBytes chunks ++ RecvReset :: rest))
        command kernel_dir build_dir s
      = run_in_vm
          (with_recv_script w (map RecvBytes chunks ++ RecvBytes [] :: rest'))
          command kernel_dir build_dir s)
  /\ (Forall (fun c => c <> []) chunks ->
      forall buf s',
        recv_loop (map RecvBytes chunks ++ RecvReset :: rest) buf s'
        = (Returns (buf ++ concat chunks),
           {| fs := fs s';
              trace := trace s' ++ repeat (EvRecv 4) (S (length chunks)) |}))
  /\ (Forall (fun c => c <> []) chunks ->
      reaches_handshake w build_dir s ->
      fst (run_in_vm
             (with_recv_script w (map RecvBytes chunks ++ RecvReset :: rest))
             command kernel_dir build_dir s)
      = check_status (concat chunks)).
Proof.
  split; [|split].
  - intros rest'. unfold run_in_vm.
    apply bind_ext. intros qemu_version s1.
    apply bind_ext. intros env s2.
    apply bind_ext. intros kvm_args s3.
    apply (with_TemporaryDirectory_ext w). intros temp_path s4.
    apply finally_ext. intros s5.
    do 3 (apply bind_ext; intros _ ?).
    apply bind_ext_l. apply (with_Popen_ext w). intros t6.
    unfold receive_status. do 2 (apply bind_ext; intros _ ?).
    cbn [accept_outcome recv_script with_recv_script].
    destruct (accept_outcome w); [|reflexivity].
    apply finally_ext. intros t7.
    apply recv_loop_reset_close.
  - intros Hne. induction Hne as [|c chunks Hc _ IH]; intros buf s'.
    + simpl. now rewrite app_nil_r.
    + destruct c as [|b c]; [congruence|].
      change (recv_loop (map RecvBytes chunks ++ RecvReset :: rest)
                (buf ++ b :: c)
                {| fs := fs s'; trace := trace s' ++ [EvRecv 4] |}
              = (Returns (buf ++ concat ((b :: c) :: chunks)),
                 {| fs := fs s';
                    trace := trace s'
                             ++ repeat (EvRecv 4) (S (length ((b :: c) :: chunks))) |})).
      rewrite IH. cbn [fs trace concat length repeat].
      now rewrite <- !app_assoc.
  - intros Hne Hreach.
    assert (Hreach' : reaches_handshake
              (with_recv_script w (map RecvBytes chunks ++ RecvReset :: rest))
              build_dir s) by exact Hreach.
    rewrite (run_in_vm_handshake _ _ _ _ _ Hreach').
    cbn [recv_script with_recv_script].
    now rewrite (recv_loop_chunks chunks RecvReset rest [] s Hne
                   (or_intror eq_refl)).
Qed.

Lemma connection_reset_like_close_witness :
  fst (run_in_vm
         (with_recv_script example_world
            (map RecvBytes [Py.encode "7"; Py.encode newline] ++ [RecvReset]))
         "exit 7" ["/"; "boot"] ["build"; "vmtest"] example_state)
  = check_status (concat [Py.encode "7"; Py.encode newline]).
Proof.
  apply (proj2 (proj2 (connection_reset_like_close example_world
                         [Py.encode "7"; Py.encode newline] []
                         "exit 7" ["/"; "boot"] ["build"; "vmtest"]
                         example_state))).
  - repeat constructor; discriminate.
  - apply example_reaches_handshake.
Defined.

(** ** The version probe and the capability flags *)

Lemma tuple_lt_ge a b : Py.tuple_lt a b = negb (Py.tuple_ge a b).
Proof.
  revert b. induction a as [|x a IH]; intros [|y b]; simpl; try reflexivity.
  destruct (Z.eqb_spec x y) as [->|Hxy]; [apply IH|].
  destruct (Z.ltb_spec x y), (Z.ltb_spec y x); simpl; try reflexivity; lia.
Qed.

Lemma supportsDeviceRemap_iff v :
  Forall (fun x => 0 <= x) v ->
  supportsDeviceRemap v = true
  <-> Py.tuple_ge v [4; 2; 0] = true \/ v = [4; 2].
Proof.
  intros Hv. unfold supportsDeviceRemap.
  destruct v as [|a [|b [|c v]]]; simpl;
    repeat match goal with
           | |- context [Z.eqb ?x ?y] => destruct (Z.eqb_spec x y); subst
           end;
    (split; [intros H; try (left; exact H) | intros [H|H]; try exact H]);
    try discriminate; try congruence; try reflexivity.
  - now right.
  - left. now destruct v.
  - left. apply Z.ltb_lt.
    assert (0 <= c)
      by (inversion Hv as [|? ? _ Hv1]; inversion Hv1 as [|? ? _ Hv2];
          now inversion Hv2).
    lia.
Qed.

(** C3, as it is stated, fails.  Version 4.2.0 is below 5.0.1, so the
    shim is needed and the flags are (true, true), not (true, false).
    And for QEMU 4.2 written with two parts the tuple (4, 2) is below
    (4, 2, 0) in the order of tuples, yet [multidevs] is used. *)
Lemma capability_flags_4_2_0 :
  capability_flags "4.2.0" = Some (true, true)
  /\ capability_flags "4.2.0" <> Some (true, false)
  /\ version_tuple "4.2" = Some [4; 2]
  /\ ~ (supportsDeviceRemap [4; 2] = true <-> Py.tuple_ge [4; 2] [4; 2; 0] = true).
Proof.
  repeat apply conj; try (vm_compute; reflexivity).
  - vm_compute. discriminate.
  - intros [H _]. specialize (H eq_refl). discriminate.
Qed.

(** C3, amended.  The flags depend on the version tuple alone, compared
    as tuples: [multidevs=remap] is used exactly from (4, 2) on, that is
    for every version from (4, 2, 0) on and for the two-part version
    (4, 2); the shim is needed exactly below (5, 0, 1).  The versions
    5.0.1 and 5.1.3 give (true, false), 3.9.9 gives (false, true), and
    4.2.0 and 5.0.0 give (true, true). *)
Theorem capability_flags_of_version :
  (forall v, Forall (fun x => 0 <= x) v ->
     (supportsDeviceRemap v = true
      <-> Py.tuple_ge v [4; 2; 0] = true \/ v = [4; 2])
     /\ (needsTimestampWorkaround v = true <-> Py.tuple_ge v [5; 0; 1] = false))
  /\ capability_flags "4.2.0" = Some (true, true)
  /\ capability_flags "5.0.1" = Some (true, false)
  /\ capability_flags "5.1.3" = Some (true, false)
  /\ capability_flags "3.9.9" = Some (false, true)
  /\ capability_flags "5.0.0" = Some (true, true).
Proof.
  split; [|repeat apply conj; vm_compute; reflexivity].
  intros v Hv. split; [now apply supportsDeviceRemap_iff|].
  unfold needsTimestampWorkaround. rewrite tuple_lt_ge.
  destruct (Py.tuple_ge v [5; 0; 1]); simpl; split; congruence.
Qed.

Lemma capability_flags_of_version_witness :
  (supportsDeviceRemap [5; 10; 2] = true
   <-> Py.tuple_ge [5; 10; 2] [4; 2; 0] = true \/ [5; 10; 2] = [4; 2])
  /\ (needsTimestampWorkaround [5; 10; 2] = true
      <-> Py.tuple_ge [5; 10; 2] [5; 0; 1] = false).
Proof.
  apply (proj1 capability_flags_of_version [5; 10; 2]).
  repeat constructor; lia.
Defined.

(** ** What a run adds to the trace *)

Lemma emits_ret {A} (P : event -> Prop) (Q : A -> Prop) a :
  Q a -> emits P Q (ret a).
Proof.
  intros HQ s. exists []. simpl. rewrite app_nil_r.
  repeat split; [constructor|]. intros b [= <-]. exact HQ.
Qed.

Lemma emits_raise {A} (P : event -> Prop) (Q : A -> Prop) e :
  emits P Q (raise e).
Proof.
  intros s. exists []. simpl. rewrite app_nil_r.
  repeat split; [constructor|]. intros b [=].
Qed.

Lemma emits_emit (P : event -> Prop) (Q : unit -> Prop) e :
  P e -> Q tt -> emits P Q (emit e).
Proof.
  intros HP HQ s. exists [e]. simpl.
  repeat split; [repeat constructor; exact HP|]. now intros [] _.
Qed.

Lemma emits_get_fs (P : event -> Prop) :
  emits P (fun _ => True) get_fs.
Proof.
  intros s. exists []. simpl. rewrite app_nil_r. repeat split; constructor.
Qed.

Lemma emits_set_fs (P : event -> Prop) f :
  emits P (fun _ => True) (set_fs f).
Proof.
  intros s. exists []. simpl. rewrite app_nil_r. repeat split; constructor.
Qed.

Lemma emits_bind {A B} (P : event -> Prop) (Q : A -> Prop) (R : B -> Prop)
    (m : M A) (k : A -> M B) :
  emits P Q m -> (forall a, Q a -> emits P R (k a)) -> emits P R (bind m k).
Proof.
  intros Hm Hk s. unfold bind.
  destruct (Hm s) as (evs & Htr & HP & HQ).
  destruct (m s) as [[a|e] s1]; simpl in *.
  - destruct (Hk a (HQ a eq_refl) s1) as (evs' & Htr' & HP' & HR).
    exists (evs ++ evs'). rewrite Htr', Htr, app_assoc.
    repeat split; [now apply Forall_app|exact HR].
  - exists evs. repeat split; [exact Htr|exact HP|]. intros b [=].
Qed.

Lemma emits_finally {A} (P : event -> Prop) (Q : A -> Prop) (R : unit -> Prop)
    (body : M A) (cleanup : M unit) :
  emits P Q body -> emits P R cleanup -> emits P Q (finally body cleanup).
Proof.
  intros Hb Hc s. unfold finally.
  destruct (Hb s) as (evs & Htr & HP & HQ).
  destruct (body s) as [r s1]; simpl in *.
  destruct (Hc s1) as (evs' & Htr' & HP' & _).
  exists (evs ++ evs'). rewrite Htr', Htr, app_assoc.
  repeat split; [now apply Forall_app|exact HQ].
Qed.

Lemma emits_weaken {A} (P P' : event -> Prop) (Q Q' : A -> Prop) (m : M A) :
  emits P Q m -> (forall e, P e -> P' e) -> (forall a, Q a -> Q' a) ->
  emits P' Q' m.
Proof.
  intros Hm HP HQ s. destruct (Hm s) as (evs & Htr & HPs & HQs).
  exists evs. repeat split; [exact Htr| |auto].
  eapply Forall_impl; [exact HPs|exact HP].
Qed.

Lemma emits_lift_option {A} (P : event -> Prop) (o : option A) e :
  emits P (fun a => o = Some a) (lift_option o e).
Proof.
  destruct o as [a|]; [now apply emits_ret|apply emits_raise].
Qed.

(** The new events of a run are determined by its last trace. *)
Lemma emits_events {A} (P : event -> Prop) (Q : A -> Prop) (m : M A) s evs :
  emits P Q m -> trace (snd (m s)) = trace s ++ evs -> Forall P evs.
Proof.
  intros Hm Htr. destruct (Hm s) as (evs' & Htr' & HP & _).
  rewrite Htr' in Htr. apply app_inv_head in Htr. now subst.
Qed.

Lemma emits_recv_loop (P : event -> Prop) script buf :
  P (EvRecv 4) -> emits P (fun _ => True) (recv_loop script buf).
Proof.
  intros HP. revert buf. induction script as [|r script IH]; intros buf.
  - simpl. apply (emits_bind P (fun _ => True)); [now apply emits_emit|].
    intros _ _. now apply emits_ret.
  - simpl. apply (emits_bind P (fun _ => True)); [now apply emits_emit|].
    intros _ _. destruct r as [[|b c]| |e].
    + now apply emits_ret.
    + apply IH.
    + now apply emits_ret.
    + apply emits_raise.
Qed.

(** ** The version probe fails *)

Lemma strip_prefix_head p s c r :
  strip_prefix p s = Some (String c r) -> In c (list_ascii_of_string s).
Proof.
  revert s. induction p as [|a p IH]; intros s H.
  - simpl in H. injection H as ->. now left.
  - destruct s as [|b s]; [discriminate|]. simpl in H.
    destruct (Ascii.eqb a b); [|discriminate]. right. now apply IH.
Qed.

Lemma search_version_no_digit out :
  Forall (fun c => Py.is_digit c = false) (list_ascii_of_string out) ->
  search_version out = None.
Proof.
  induction out as [|a out IH]; intros Hno.
  - reflexivity.
  - assert (Hhere : match_version_here (String a out) = None).
    { unfold match_version_here.
      destruct (strip_prefix _ (String a out)) as [[|c r]|] eqn:E; try reflexivity.
      apply strip_prefix_head in E.
      rewrite List.Forall_forall in Hno. now rewrite (Hno c E). }
    cbn [search_version]. rewrite Hhere. apply IH.
    now inversion Hno.
Qed.

(** C5.  When the text that QEMU prints for [-version] has no match for
    the version pattern, [run_in_vm] raises the exception for an unknown
    version.  The query of the version is all that was done by then: no
    shim was built, no directory or socket was made, QEMU was not started,
    and no flag was chosen instead.  A text without any decimal digit is
    such a text. *)
Theorem unparseable_version_is_fatal :
  (forall out,
      Forall (fun c => Py.is_digit c = false) (list_ascii_of_string out) ->
      search_version out = None)
  /\ (forall w command kernel_dir build_dir s out,
         qemu_version_output w = Some out ->
         search_version out = None ->
         run_in_vm w command kernel_dir build_dir s
         = (Raises (Exception "could not determine QEMU version"),
            {| fs := fs s;
               trace := trace s ++ [EvCheckOutput ["qemu-system-x86_64"; "-version"]] |})).
Proof.
  split; [exact search_version_no_digit|].
  intros w command kernel_dir build_dir s out Hout Hsearch.
  unfold run_in_vm, probe_version, check_output, bind, emit, lift_option.
  rewrite Hout. unfold ret. now rewrite Hsearch.
Qed.

Lemma unparseable_version_is_fatal_witness :
  run_in_vm
    (with_version_output example_world
       (Some "QEMU emulator version unknown"))
    "true" ["/"; "boot"] ["build"; "vmtest"] example_state
  = (Raises (Exception "could not determine QEMU version"),
     {| fs := ∅;
        trace := [EvCheckOutput ["qemu-system-x86_64"; "-version"]] |}).
Proof.
  refine (proj2 unparseable_version_is_fatal
            (with_version_output example_world
               (Some "QEMU emulator version unknown"))
            "true" ["/"; "boot"] ["build"; "vmtest"] example_state
            "QEMU emulator version unknown" eq_refl _).
  apply (proj1 unparseable_version_is_fatal).
  vm_compute. repeat constructor.
Defined.

(** ** The shim *)





(** ** The events of a whole run *)

Lemma emits_lift_outcome {A} (P : event -> Prop) (r : outcome A) :
  emits P (fun _ => True) (lift_outcome r).
Proof.
  intros s. exists []. simpl. rewrite app_nil_r. repeat split; constructor.
Qed.

Lemma probe_version_emits (P : event -> Prop) w :
  P (EvCheckOutput ["qemu-system-x86_64"; "-version"]) ->
  emits P (fun v => qemu_version_of w = Some v) (probe_version w).
Proof.
  intros HP. unfold probe_version, check_output.
  apply (emits_bind P (fun out => qemu_version_output w = Some out)).
  - apply (emits_bind P (fun _ => True)); [now apply emits_emit|].
    intros _ _. apply emits_lift_option.
  - intros out Hout. unfold qemu_version_of. rewrite Hout. simpl.
    destruct (search_version out) as [group1|]; [|apply emits_raise].
    apply emits_lift_option.
Qed.

Lemma build_onoatimehack_emits (P : event -> Prop) w dir :
  P (EvMkdir dir) ->
  (forall args a b c d, P (EvCompile args a b c d)) ->
  emits P (fun so => so = joinpath dir "onoatimehack.so")
    (_build_onoatimehack w dir).
Proof.
  intros Hmk Hcc. unfold _build_onoatimehack, mkdir_parents, _compile.
  apply (emits_bind P (fun _ => True)).
  { apply (emits_bind P (fun _ => True)); [now apply emits_emit|].
    intros _ _. apply (emits_bind P (fun _ => True)); [apply emits_get_fs|].
    intros f _. apply emits_set_fs. }
  intros _ _. apply (emits_bind P (fun _ => True)).
  { apply (emits_weaken P P _ (fun _ => True) _ (emits_lift_option P _ _)); auto. }
  intros c _. apply (emits_bind P (fun _ => True)); [apply emits_get_fs|].
  intros f _. apply (emits_bind P (fun _ => True)).
  { destruct (out_of_date _ _ _); [|now apply emits_ret].
    apply (emits_bind P (fun _ => True)); [now apply emits_emit|].
    intros _ _. destruct (cc_succeeds w); [|apply emits_raise].
    apply (emits_bind P (fun _ => True)); [apply emits_get_fs|].
    intros g _. apply emits_set_fs. }
  intros _ _. now apply emits_ret.
Qed.

Lemma qemu_env_emits (P : event -> Prop) w v build_dir :
  P (EvMkdir build_dir) ->
  (forall args a b c d, P (EvCompile args a b c d)) ->
  emits P (fun env => env = qemu_env_of w v build_dir) (qemu_env w v build_dir).
Proof.
  intros Hmk Hcc. unfold qemu_env, qemu_env_of.
  destruct (needsTimestampWorkaround v); [|now apply emits_ret].
  eapply emits_bind; [now apply build_onoatimehack_emits|].
  intros so ->. now apply emits_ret.
Qed.

Lemma receive_status_emits (P : event -> Prop) w :
  (forall e, not_popen e -> P e) ->
  emits P (fun _ => True) (receive_status w).
Proof.
  intros HP. unfold receive_status.
  apply (emits_bind P (fun _ => True)); [apply emits_emit; [now apply HP|exact I]|].
  intros _ _.
  apply (emits_bind P (fun _ => True)); [apply emits_emit; [now apply HP|exact I]|].
  intros _ _. destruct (accept_outcome w); [|apply emits_raise].
  apply (emits_finally P _ (fun _ => True)).
  - apply emits_recv_loop. now apply HP.
  - apply emits_emit; [now apply HP|exact I].
Qed.

(** Lines 207 to 279, inside the two outer context managers. *)
Lemma in_temp_dir_emits (P : event -> Prop) w command kernel_dir kvm_args
    md env temp_path :
  (forall e, not_popen e -> P e) ->
  (forall argv, P (EvPopen argv env)) ->
  emits P (fun _ => True)
    (let socket_path := joinpath temp_path "socket" in
     sock_bind w socket_path ;;
     emit EvListen ;;
     let init := resolve w (joinpath temp_path "init") in
     write_init w (joinpath temp_path "init") init
       {| init_9PFS_MSIZE := _9PFS_MSIZE;
          init_cwd := shlex_quote (path_str (getcwd w));
          init_command := shlex_quote command;
          init_kdump_needs_nosmp :=
            match kvm_args with
            | [] => "export KDUMP_NEEDS_NOSMP=1"
            | _ => ""
            end |} ;;
     status_buf <-
       with_Popen w
         (qemu_argv kvm_args (nproc w) md kernel_dir socket_path init)
         env (receive_status w) ;;
     lift_outcome (check_status status_buf)).
Proof.
  intros HP Hpopen. cbv zeta.
  assert (Hemit : forall e, not_popen e -> emits P (fun _ => True) (emit e))
    by (intros e He; apply emits_emit; [now apply HP|exact I]).
  apply (emits_bind P (fun _ => True)).
  { unfold sock_bind. apply (emits_bind P (fun _ => True)); [now apply Hemit|].
    intros _ _. apply (emits_bind P (fun _ => True)); [apply emits_get_fs|].
    intros f _. apply emits_set_fs. }
  intros _ _. apply (emits_bind P (fun _ => True)); [now apply Hemit|].
  intros _ _. apply (emits_bind P (fun _ => True)).
  { unfold write_init. apply (emits_bind P (fun _ => True)); [now apply Hemit|].
    intros _ _. apply (emits_bind P (fun _ => True)); [apply emits_get_fs|].
    intros f _. apply (emits_bind P (fun _ => True)); [apply emits_set_fs|].
    intros _ _. now apply Hemit. }
  intros _ _. apply (emits_bind P (fun _ => True)).
  { unfold with_Popen.
    apply (emits_bind P (fun _ => True)); [apply emits_emit; [apply Hpopen|exact I]|].
    intros _ _. destruct (popen_succeeds w); [|apply emits_raise].
    apply (emits_finally P _ (fun _ => True)); [now apply receive_status_emits|].
    now apply Hemit. }
  intros status_buf _. apply emits_lift_outcome.
Qed.

Lemma with_TemporaryDirectory_emits {A} (P : event -> Prop) w (body : Path -> M A) :
  (forall e, not_popen e -> P e) ->
  (forall d, emits P (fun _ => True) (body d)) ->
  emits P (fun _ => True) (with_TemporaryDirectory w body).
Proof.
  intros HP Hbody. unfold with_TemporaryDirectory, rmtree.
  assert (Hemit : forall e, not_popen e -> emits P (fun _ => True) (emit e))
    by (intros e He; apply emits_emit; [now apply HP|exact I]).
  apply (emits_bind P (fun _ => True)); [apply emits_get_fs|].
  intros f _. destruct (f !! mkdtemp w); [apply emits_raise|].
  apply (emits_bind P (fun _ => True)); [now apply Hemit|].
  intros _ _. apply (emits_bind P (fun _ => True)); [apply emits_set_fs|].
  intros _ _. apply (emits_finally P _ (fun _ => True)); [apply Hbody|].
  apply (emits_bind P (fun _ => True)); [now apply Hemit|].
  intros _ _. apply (emits_bind P (fun _ => True)); [apply emits_get_fs|].
  intros g _. apply emits_set_fs.
Qed.

Lemma run_in_vm_emits (P : event -> Prop) w command kernel_dir build_dir :
  (forall e, not_popen e -> P e) ->
  (forall v argv, qemu_version_of w = Some v ->
                  P (EvPopen argv (qemu_env_of w v build_dir))) ->
  emits P (fun _ => True) (run_in_vm w command kernel_dir build_dir).
Proof.
  intros HP Hpopen. unfold run_in_vm.
  eapply emits_bind; [apply probe_version_emits; now apply HP|].
  intros v Hv.
  eapply emits_bind;
    [apply qemu_env_emits; [now apply HP|intros; now apply HP]|].
  intros env ->.
  apply (emits_bind P (fun _ => True)).
  { destruct (dev_kvm_access w); [now apply emits_ret|].
    apply (emits_bind P (fun _ => True));
      [apply emits_emit; [now apply HP|exact I]|].
    intros _ _. now apply emits_ret. }
  intros kvm_args _.
  apply with_TemporaryDirectory_emits; [exact HP|].
  intros d. unfold with_server_sock.
  apply (emits_finally P _ (fun _ => True)).
  - apply in_temp_dir_emits; [exact HP|]. intros argv. now apply Hpopen.
  - apply emits_emit; [now apply HP|exact I].
Qed.

(** ** Cleaning up *)

Lemma probe_version_fs w s : fs (snd (probe_version w s)) = fs s.
Proof.
  unfold probe_version, check_output, bind, emit, lift_option, ret, raise.
  destruct (qemu_version_output w) as [out|]; [|reflexivity]. cbn [fst snd fs].
  destruct (search_version out) as [g|]; [|reflexivity].
  now destruct (version_tuple g).
Qed.

Lemma ancestors_prefix (p q : Path) : In q (ancestors p) -> q `prefix_of` p.
Proof.
  revert q. induction p as [|x p IH]; intros q; [intros []|].
  intros [<-|Hin].
  - now exists p.
  - apply in_map_iff in Hin as (q' & <- & Hq'). now apply prefix_cons, IH.
Qed.

Lemma mkdir_fold_lookup (t : Z) (l : list Path) (f : gmap Path Z) (p : Path) :
  ~ In p l ->
  foldr (fun q g => match g !! q with
                    | None => <[q := t]> g
                    | Some _ => g
                    end) f l !! p = f !! p.
Proof.
  induction l as [|q l IH]; intros Hp; [reflexivity|].
  cbn [foldr]. rewrite not_in_cons in Hp. destruct Hp as [Hne Hp].
  destruct (foldr _ f l !! q); [now apply IH|].
  rewrite lookup_insert_ne by congruence. now apply IH.
Qed.

Lemma qemu_env_fs w v build_dir s (d p : Path) :
  ~ d `prefix_of` joinpath build_dir "onoatimehack.so" ->
  d `prefix_of` p ->
  fs (snd (qemu_env w v build_dir s)) !! p = fs s !! p.
Proof.
  intros Hso Hp.
  assert (Hmk : forall f : gmap Path Z,
             foldr (fun q g => match g !! q with
                               | None => <[q := now w]> g
                               | Some _ => g
                               end) f (ancestors build_dir) !! p = f !! p).
  { intros f. apply mkdir_fold_lookup. intros Hin. apply ancestors_prefix in Hin.
    apply Hso. unfold joinpath. apply prefix_app_r. now transitivity p. }
  assert (Hne : joinpath build_dir "onoatimehack.so" <> p)
    by (intros <-; now apply Hso).
  unfold qemu_env.
  destruct (needsTimestampWorkaround v); [|reflexivity].
  unfold _build_onoatimehack, lift_option.
  destruct (relative_to _ _) as [c|];
    unfold mkdir_parents, _compile, bind, emit, get_fs, set_fs, ret, raise;
    cbn [fst snd fs]; [|apply Hmk].
  destruct (out_of_date _ _ c); cbn [fst snd fs]; [|apply Hmk].
  destruct (cc_succeeds w); cbn [fst snd fs]; [|apply Hmk].
  rewrite lookup_insert_ne by exact Hne. apply Hmk.
Qed.

Lemma with_TemporaryDirectory_fs {A} w (body : Path -> M A) s p :
  (forall q, mkdtemp w `prefix_of` q -> fs s !! q = None) ->
  mkdtemp w `prefix_of` p ->
  fs (snd (with_TemporaryDirectory w body s)) !! p = None.
Proof.
  intros Hfree Hp. unfold with_TemporaryDirectory, bind at 1, get_fs.
  rewrite (Hfree (mkdtemp w)) by reflexivity.
  unfold bind, emit, set_fs, finally, rmtree, get_fs.
  cbn [fst snd fs].
  match goal with
  | |- context [body ?d ?st] => destruct (body d st) as [r s1]
  end.
  cbn [fst snd fs]. apply map_lookup_filter_None. right.
  intros x _ Hnot. now apply Hnot.
Qed.

Lemma cleans_up_bind {A B} d (Q : A -> Prop) (m : M A) (k : A -> M B) :
  emits not_mkdtemp Q m -> (forall a, Q a -> cleans_up d (k a)) ->
  cleans_up d (bind m k).
Proof.
  intros Hm Hk s. unfold bind.
  destruct (Hm s) as (e1 & T1 & F1 & HQ).
  destruct (m s) as [[a|e] s1]; simpl in *.
  - destruct (Hk a (HQ a eq_refl) s1) as (e2 & T2 & [F2|(before & ->)]).
    + exists (e1 ++ e2). rewrite T2, T1, app_assoc.
      split; [reflexivity|left; now apply Forall_app].
    + exists (e1 ++ before ++ [EvServerSockClose; EvRmtree d]).
      rewrite T2, T1, <- !app_assoc.
      split; [reflexivity|right]. exists (e1 ++ before). now rewrite <- app_assoc.
  - exists e1. split; [exact T1|now left].
Qed.

Lemma with_TemporaryDirectory_cleans_up {A} w (body : Path -> M A) :
  (forall d, emits (fun _ => True) (fun _ => True) (body d)) ->
  cleans_up (mkdtemp w)
    (with_TemporaryDirectory w (fun d => with_server_sock (body d))).
Proof.
  intros Hbody s. unfold with_TemporaryDirectory, bind at 1, get_fs.
  destruct (fs s !! mkdtemp w).
  - exists []. unfold raise. cbn [snd]. rewrite app_nil_r.
    split; [reflexivity|left; constructor].
  - unfold with_server_sock, rmtree, finally, bind, emit, set_fs, get_fs.
    cbn [fst snd fs trace].
    match goal with
    | |- context [body ?d ?st] =>
        destruct (Hbody d st) as (mid & T & _ & _);
        destruct (body d st) as [r s1]
    end.
    cbn [fst snd fs trace] in *.
    exists (EvMkdtemp (mkdtemp w) :: mid ++ [EvServerSockClose; EvRmtree (mkdtemp w)]).
    rewrite T. split.
    + now rewrite <- !app_assoc.
    + right. now exists (EvMkdtemp (mkdtemp w) :: mid).
Qed.

Lemma run_in_vm_cleans_up w command kernel_dir build_dir :
  cleans_up (mkdtemp w) (run_in_vm w command kernel_dir build_dir).
Proof.
  unfold run_in_vm.
  eapply cleans_up_bind; [now apply probe_version_emits|].
  intros v _.
  eapply cleans_up_bind; [apply qemu_env_emits; [exact I|intros; exact I]|].
  intros env _.
  apply (cleans_up_bind _ (fun _ => True)).
  { destruct (dev_kvm_access w); [now apply emits_ret|].
    apply (emits_bind _ (fun _ => True)); [now apply emits_emit|].
    intros _ _. now apply emits_ret. }
  intros kvm_args _.
  apply (with_TemporaryDirectory_cleans_up w
           (fun temp_path =>
              sock_bind w (joinpath temp_path "socket");;
              emit EvListen;;
              write_init w (joinpath temp_path "init") _ _;;
              status_buf <- with_Popen w _ env (receive_status w);;
              lift_outcome (check_status status_buf))).
  intros d. now apply in_temp_dir_emits.
Qed.

(** C7.  However [run_in_vm] ends, with an exit status or with any error
    (no connection in time, no status, an invalid status, a broken
    connection, QEMU not starting), the temporary directory with the init
    script and the socket in it is gone when the result or the error
    reaches the caller: nothing is left at or below its path, and when the
    directory was made, closing the listening socket and removing the
    directory are the last two things the run does. *)
Theorem guaranteed_cleanup w command kernel_dir build_dir s :
  (forall p, mkdtemp w `prefix_of` p -> fs s !! p = None) ->
  ~ mkdtemp w `prefix_of` joinpath build_dir "onoatimehack.so" ->
  let after := snd (run_in_vm w command kernel_dir build_dir s) in
  (forall p, mkdtemp w `prefix_of` p -> fs after !! p = None)
  /\ fs after !! mkdtemp w = None
  /\ fs after !! joinpath (mkdtemp w) "socket" = None
  /\ fs after !! joinpath (mkdtemp w) "init" = None
  /\ (forall evs, trace after = trace s ++ evs ->
        In (EvMkdtemp (mkdtemp w)) evs ->
        ends_with_cleanup (mkdtemp w) evs).
Proof.
  intros Hfree Hbuild after.
  assert (Hgone : forall p, mkdtemp w `prefix_of` p -> fs after !! p = None).
  { intros p Hp. unfold after, run_in_vm.
    unfold bind at 1.
    pose proof (probe_version_fs w s) as Hfs1.
    destruct (probe_version w s) as [[v|e] s1]; cbn [snd] in *;
      [|rewrite Hfs1; now apply Hfree].
    unfold bind at 1.
    pose proof (fun q => qemu_env_fs w v build_dir s1 (mkdtemp w) q Hbuild) as Hfs2.
    destruct (qemu_env w v build_dir s1) as [[env|e] s2]; cbn [snd] in *;
      [|rewrite Hfs2, Hfs1; auto].
    assert (Hfree2 : forall q, mkdtemp w `prefix_of` q -> fs s2 !! q = None)
      by (intros q Hq; rewrite Hfs2, Hfs1; auto).
    unfold bind at 1.
    destruct (dev_kvm_access w).
    - unfold ret. now apply with_TemporaryDirectory_fs.
    - unfold bind, emit, ret. now apply with_TemporaryDirectory_fs. }
  split; [exact Hgone|].
  split; [now apply Hgone|].
  split; [apply Hgone; unfold joinpath; now apply prefix_app_r|].
  split; [apply Hgone; unfold joinpath; now apply prefix_app_r|].
  intros evs Htr Hin.
  destruct (run_in_vm_cleans_up w command kernel_dir build_dir s)
    as (evs' & Htr' & Hshape).
  fold after in Htr'. rewrite Htr' in Htr. apply app_inv_head in Htr. subst evs'.
  destruct Hshape as [Hnone|Hends]; [|exact Hends].
  rewrite List.Forall_forall in Hnone. destruct (Hnone _ Hin).
Qed.

Lemma guaranteed_cleanup_witness :
  let after := snd (run_in_vm example_world "exit 255" ["/"; "boot"]
                      ["build"; "vmtest"] example_state) in
  (forall p, mkdtemp example_world `prefix_of` p -> fs after !! p = None)
  /\ fs after !! mkdtemp example_world = None
  /\ fs after !! joinpath (mkdtemp example_world) "socket" = None
  /\ fs after !! joinpath (mkdtemp example_world) "init" = None
  /\ (forall evs, trace after = trace example_state ++ evs ->
        In (EvMkdtemp (mkdtemp example_world)) evs ->
        ends_with_cleanup (mkdtemp example_world) evs).
Proof.
  apply (guaranteed_cleanup example_world "exit 255" ["/"; "boot"]
           ["build"; "vmtest"] example_state).
  - intros p _. apply lookup_empty.
  - intros [k Hk]. discriminate Hk.
Defined.

(** ** No connection in time *)

Lemma snoc6 {A} (t : list A) a b c d e f :
  t ++ [a; b; c; d; e; f]
  = (((((t ++ [a]) ++ [b]) ++ [c]) ++ [d]) ++ [e]) ++ [f].
Proof. now rewrite <- !app_assoc. Qed.

(** When [accept] times out, the run ends with a [LostVMError]; [accept]
    was called once, and before the error leaves [run_in_vm] the QEMU
    process is waited for and the temporary directory is removed. *)
Lemma accept_timeout_is_lost_vm w command kernel_dir build_dir s v env s1 s2 :
  probe_version w s = (Returns v, s1) ->
  qemu_env w v build_dir s1 = (Returns env, s2) ->
  fs s2 !! mkdtemp w = None ->
  popen_succeeds w = true ->
  accept_outcome w = AcceptTimeout ->
  exists before argv files,
    run_in_vm w command kernel_dir build_dir s
    = (Raises (LostVMError "QEMU did not connect within 5.0 seconds"),
       {| fs := files;
          trace := before ++ [EvPopen argv env; EvSetTimeout 5; EvAccept;
                              EvPopenWait; EvServerSockClose;
                              EvRmtree (mkdtemp w)] |})
    /\ is_LostVMError (LostVMError "QEMU did not connect within 5.0 seconds")
       = true.
Proof.
  intros Hprobe Henv Hfree Hpopen Hacc. unfold run_in_vm.
  unfold bind at 1. rewrite Hprobe. unfold bind at 1. rewrite Henv.
  set (after := fun kvm_args : list string => with_TemporaryDirectory w _).
  assert (Hafter : forall kvm_args s3, fs s3 = fs s2 ->
            exists before argv files,
              after kvm_args s3
              = (Raises (LostVMError "QEMU did not connect within 5.0 seconds"),
                 {| fs := files;
                    trace := before ++ [EvPopen argv env; EvSetTimeout 5;
                                        EvAccept; EvPopenWait;
                                        EvServerSockClose;
                                        EvRmtree (mkdtemp w)] |})).
  { intros kvm_args s3 Hfs.
    unfold after, with_TemporaryDirectory, with_server_sock, with_Popen,
      receive_status, sock_bind, write_init, rmtree, finally, bind, emit,
      get_fs, set_fs, ret, raise, lift_outcome.
    cbn [fst snd fs trace]. rewrite Hfs, Hfree. cbn [fst snd fs trace].
    rewrite Hpopen, Hacc. cbn [fst snd fs trace].
    eexists _, _, _. rewrite <- snoc6. reflexivity. }
  unfold bind at 1. destruct (dev_kvm_access w).
  - unfold ret.
    destruct (Hafter ["-cpu"; "host"; "-enable-kvm"] s2 eq_refl)
      as (before & argv & files & H).
    exists before, argv, files. now rewrite H.
  - unfold bind, emit, ret.
    match goal with
    | |- context [after [] ?st] =>
        destruct (Hafter [] st eq_refl) as (before & argv & files & H)
    end.
    exists before, argv, files. now rewrite H.
Qed.

(** ** Reading and writing decimal numbers *)

(** [simpl] leaves the append of strings alone; this unfolds it one step
    at a time. *)
Ltac app_cons :=
  repeat match goal with
    | |- context [String ?c ?s +:+ ?t] =>
        change (String c s +:+ t) with (String c (s +:+ t))
    | |- context [EmptyString +:+ ?t] => change (EmptyString +:+ t) with t
    | H : context [String ?c ?s +:+ ?t] |- _ =>
        change (String c s +:+ t) with (String c (s +:+ t)) in H
    | H : context [EmptyString +:+ ?t] |- _ =>
        change (EmptyString +:+ t) with t in H
    end.

Lemma list_ascii_of_string_app s t :
  list_ascii_of_string (s +:+ t) = list_ascii_of_string s ++ list_ascii_of_string t.
Proof.
  induction s as [|c s IH]; app_cons; [reflexivity|]. simpl. now rewrite IH.
Qed.

Lemma string_app_assoc (s t u : string) : (s +:+ t) +:+ u = s +:+ (t +:+ u).
Proof. induction s as [|c s IH]; app_cons; [reflexivity|]. now rewrite IH. Qed.

Lemma string_app_nil_r (s : string) : s +:+ "" = s.
Proof. induction s as [|c s IH]; app_cons; [reflexivity|]. now rewrite IH. Qed.

Lemma encode_app s t : Py.encode (s +:+ t) = Py.encode s ++ Py.encode t.
Proof.
  unfold Py.encode, list_byte_of_string.
  now rewrite list_ascii_of_string_app, map_app.
Qed.

Lemma decode_encode s : Py.decode (Py.encode s) = s.
Proof. apply string_of_list_byte_of_string. Qed.

Lemma is_digit_ord c : Py.is_digit c = true <-> 48 <= Py.ord c <= 57.
Proof. unfold Py.is_digit. rewrite andb_true_iff, !Z.leb_le. tauto. Qed.

Lemma is_digit_not_space c : Py.is_digit c = true -> Py.is_space c = false.
Proof.
  intros H%is_digit_ord. unfold Py.is_space.
  apply orb_false_iff. split; [apply Z.eqb_neq; lia|].
  apply andb_false_iff. right. apply Z.leb_gt. lia.
Qed.

Lemma ord_digit_char d : 0 <= d <= 9 -> Py.ord (Py.digit_char d) = 48 + d.
Proof.
  intros Hd. unfold Py.ord, Py.digit_char.
  rewrite N_ascii_embedding by lia. lia.
Qed.

Lemma is_digit_digit_char d : 0 <= d <= 9 -> Py.is_digit (Py.digit_char d) = true.
Proof. intros Hd. apply is_digit_ord. rewrite ord_digit_char; lia. Qed.

(** The digits are read from the left, in base ten. *)
Lemma int_digits_all_digits s a :
  forallb Py.is_digit (list_ascii_of_string s) = true ->
  Py.int_digits a s
  = Some (fold_left (fun a c => 10 * a + (Py.ord c - 48)) (list_ascii_of_string s) a).
Proof.
  revert a. induction s as [|c s IH]; intros a H; [reflexivity|].
  simpl in H. apply andb_true_iff in H as [Hc Hs].
  simpl. rewrite Hc. now apply IH.
Qed.

Lemma digit_count_all_digits s :
  forallb Py.is_digit (list_ascii_of_string s) = true ->
  Py.digit_count s = Z.of_nat (String.length s).
Proof.
  induction s as [|c s IH]; [reflexivity|].
  cbn [list_ascii_of_string forallb Py.digit_count String.length].
  intros [Hc Hs]%andb_true_iff. rewrite Hc, (IH Hs). lia.
Qed.

(** A text of digits is converted unless it is too long. *)
Lemma int_unsigned_all_digits s :
  all_digits s = true ->
  Py.int_unsigned s
  = if too_long s then None else Some (digits_value s).
Proof.
  intros Hall. unfold Py.int_unsigned, too_long.
  destruct s as [|c s]; [discriminate|]. unfold all_digits in Hall.
  rewrite (digit_count_all_digits _ Hall).
  destruct (_ <? _); [reflexivity|]. unfold digits_value.
  cbn [list_ascii_of_string forallb] in Hall.
  apply andb_true_iff in Hall as [Hc Hs].
  simpl. rewrite Hc. now apply int_digits_all_digits.
Qed.

Lemma int_of_str_starts_with_digit t c s :
  Py.rstrip (Py.lstrip t) = String c s -> Py.is_digit c = true ->
  Py.int_of_str t = Py.int_unsigned (String c s).
Proof.
  intros Ht Hc. unfold Py.int_of_str. rewrite Ht.
  destruct c as [[] [] [] [] [] [] [] []]; try discriminate Hc; reflexivity.
Qed.

Lemma lstrip_all_digits s : all_digits s = true -> Py.lstrip s = s.
Proof.
  destruct s as [|c s]; [discriminate|]. unfold all_digits. simpl.
  intros [Hc _]%andb_true_iff. now rewrite (is_digit_not_space c Hc).
Qed.

Lemma rstrip_all_digits s :
  forallb Py.is_digit (list_ascii_of_string s) = true ->
  Py.rstrip s = s /\ Py.rstrip (s +:+ String (ascii_of_nat 10) "") = s.
Proof.
  induction s as [|c s IH]; [now split|].
  simpl. intros [Hc Hs]%andb_true_iff. app_cons. cbn [Py.rstrip].
  destruct (IH Hs) as [IH1 IH2]. rewrite IH1, IH2.
  rewrite (is_digit_not_space c Hc). now destruct s.
Qed.

Lemma int_of_str_all_digits s :
  all_digits s = true ->
  Py.int_of_str s = (if too_long s then None else Some (digits_value s))
  /\ Py.int_of_str (s +:+ String (ascii_of_nat 10) "")
     = (if too_long s then None else Some (digits_value s)).
Proof.
  intros Hs. pose proof (lstrip_all_digits s Hs) as Hl.
  destruct s as [|c s]; [discriminate|].
  assert (Hall : forallb Py.is_digit (list_ascii_of_string (String c s)) = true)
    by exact Hs.
  destruct (rstrip_all_digits _ Hall) as [Hr1 Hr2].
  assert (Hc : Py.is_digit c = true)
    by (simpl in Hall; now apply andb_true_iff in Hall as [? _]).
  split.
  - rewrite (int_of_str_starts_with_digit _ c s); [|now rewrite Hl, Hr1|exact Hc].
    now apply int_unsigned_all_digits.
  - rewrite (int_of_str_starts_with_digit _ c s); [|
      |exact Hc].
    + now apply int_unsigned_all_digits.
    + assert (Hl2 : Py.lstrip (String c s +:+ String (ascii_of_nat 10) "")
                    = String c s +:+ String (ascii_of_nat 10) "")
        by (app_cons; simpl; now rewrite (is_digit_not_space c Hc)).
      now rewrite Hl2, Hr2.
Qed.

Lemma all_digits_forallb s :
  all_digits s = true -> forallb Py.is_digit (list_ascii_of_string s) = true.
Proof. destruct s; [discriminate|exact (fun H => H)]. Qed.

Lemma all_digits_app s t :
  all_digits s = true -> forallb Py.is_digit (list_ascii_of_string t) = true ->
  all_digits (s +:+ t) = true.
Proof.
  intros Hs Ht. pose proof (all_digits_forallb s Hs) as Hs'.
  destruct s as [|c s]; [discriminate|]. app_cons. unfold all_digits.
  change (String c (s +:+ t)) with (String c s +:+ t).
  now rewrite list_ascii_of_string_app, forallb_app, Hs', Ht.
Qed.

Lemma str_digits_S f n acc :
  Py.str_digits (S f) n acc
  = if n / 10 =? 0 then String (Py.digit_char (n mod 10)) acc
    else Py.str_digits f (n / 10) (String (Py.digit_char (n mod 10)) acc).
Proof. reflexivity. Qed.

(** What [str] writes for a number that is not negative. *)
Lemma str_digits_spec f n tl :
  0 <= n < 10 ^ Z.of_nat (S f) ->
  exists pre,
    Py.str_digits (S f) n tl = pre +:+ tl
    /\ all_digits pre = true
    /\ forall a, fold_left (fun a c => 10 * a + (Py.ord c - 48))
                   (list_ascii_of_string pre) a
                 = a * 10 ^ Z.of_nat (String.length pre) + n.
Proof.
  revert n tl. induction f as [|f IH]; intros n tl Hn.
  - assert (Hlt : n < 10) by (change (10 ^ Z.of_nat 1) with 10 in Hn; lia).
    exists (String (Py.digit_char n) "").
    assert (Hq : n / 10 = 0) by (apply Z.div_small; lia).
    assert (Hm : n mod 10 = n) by (apply Z.mod_small; lia).
    rewrite str_digits_S, Hq, Hm. simpl (0 =? 0).
    split; [reflexivity|]. split.
    + unfold all_digits. simpl. now rewrite is_digit_digit_char by lia.
    + intros a. simpl. rewrite ord_digit_char by lia.
      change (Z.pow_pos 10 1) with 10. lia.
  - rewrite str_digits_S.
    assert (Hmod : 0 <= n mod 10 <= 9)
      by (pose proof (Z.mod_pos_bound n 10 ltac:(lia)); lia).
    destruct (Z.eqb_spec (n / 10) 0) as [Hq|Hq].
    + exists (String (Py.digit_char (n mod 10)) "").
      split; [reflexivity|]. split.
      * unfold all_digits. simpl. now rewrite is_digit_digit_char.
      * intros a. simpl. rewrite ord_digit_char by lia.
        change (Z.pow_pos 10 1) with 10.
        pose proof (Z.div_mod n 10 ltac:(lia)). lia.
    + assert (Hdiv : 0 <= n / 10 < 10 ^ Z.of_nat (S f)).
      { split; [apply Z.div_pos; lia|].
        apply Z.div_lt_upper_bound; [lia|].
        replace (10 * 10 ^ Z.of_nat (S f)) with (10 ^ Z.of_nat (S (S f)));
          [lia|].
        rewrite (Nat2Z.inj_succ (S f)), Z.pow_succ_r by lia. reflexivity. }
      destruct (IH (n / 10) (String (Py.digit_char (n mod 10)) tl) Hdiv)
        as (pre & Heq & Hpre & Hval).
      exists (pre +:+ String (Py.digit_char (n mod 10)) "").
      split; [|split].
      * rewrite Heq, string_app_assoc. reflexivity.
      * apply all_digits_app; [exact Hpre|].
        simpl. now rewrite is_digit_digit_char.
      * intros a. rewrite list_ascii_of_string_app, fold_left_app, Hval.
        simpl. rewrite ord_digit_char by lia.
        assert (Hlen : String.length (pre +:+ String (Py.digit_char (n mod 10)) "")
                       = S (String.length pre)).
        { clear. induction pre as [|c pre IH]; app_cons; simpl;
            [reflexivity|now rewrite IH]. }
        rewrite Hlen, Nat2Z.inj_succ, Z.pow_succ_r by lia.
        pose proof (Z.div_mod n 10 ltac:(lia)). lia.
Qed.

Lemma str_nonneg_spec n :
  0 <= n ->
  all_digits (Py.str n) = true /\ digits_value (Py.str n) = n.
Proof.
  intros Hn. unfold Py.str. destruct (Z.ltb_spec n 0); [lia|].
  unfold Py.str_nonneg.
  assert (Hfuel : 0 <= n < 10 ^ Z.of_nat (S (Z.to_nat (Z.log2 n)))).
  { split; [exact Hn|]. rewrite Nat2Z.inj_succ, Z2Nat.id by apply Z.log2_nonneg.
    destruct (Z.eq_dec n 0) as [->|Hne]; [reflexivity|].
    pose proof (Z.log2_spec n ltac:(lia)) as [_ Hlt].
    eapply Z.lt_le_trans; [exact Hlt|].
    apply Z.pow_le_mono_l. pose proof (Z.log2_nonneg n). lia. }
  destruct (str_digits_spec _ n "" Hfuel) as (pre & Heq & Hpre & Hval).
  rewrite Heq, string_app_nil_r. split; [exact Hpre|].
  unfold digits_value. rewrite Hval. lia.
Qed.

(** ** Which buffers are taken for a status *)

Lemma bytes_isdigit_encode s : Py.bytes_isdigit (Py.encode s) = all_digits s.
Proof.
  assert (H : forall l, forallb (fun x => Py.is_digit (ascii_of_byte x))
                          (map byte_of_ascii l) = forallb Py.is_digit l).
  { induction l as [|c l IH]; simpl; [reflexivity|].
    now rewrite ascii_of_byte_of_ascii, IH. }
  destruct s as [|c s]; [reflexivity|].
  unfold Py.bytes_isdigit, all_digits, Py.encode, list_byte_of_string.
  cbn [list_ascii_of_string map]. rewrite <- H. reflexivity.
Qed.

Lemma encode_decode b : Py.encode (Py.decode b) = b.
Proof. apply list_byte_of_string_of_list_byte. Qed.

Lemma byte_val_newline x : Py.byte_val x = 10 -> x = x0a.
Proof.
  unfold Py.byte_val. intros H.
  assert (Hn : Byte.to_N x = Byte.to_N x0a) by (simpl; lia).
  apply (f_equal Byte.of_N) in Hn. rewrite !Byte.of_to_N in Hn. congruence.
Qed.

Lemma check_status_snoc l x :
  check_status (l ++ [x])
  = if negb (Py.byte_val x =? 10) || negb (Py.bytes_isdigit l)
    then Raises (LostVMError ("VM returned invalid status: "
                              +:+ Py.slice 11 1 (Py.repr_bytearray (l ++ [x]))))
    else match Py.int_of_bytes (l ++ [x]) with
         | Some n => Returns n
         | None =>
             Raises (ValueError (Py.int_limit_message (Py.decode (l ++ [x]))))
         end.
Proof.
  unfold check_status.
  rewrite last_last, removelast_last.
  now destruct l.
Qed.

(** Digits and a newline: the number, unless the digits are too many for
    [int]. *)
Lemma check_status_digits digits :
  all_digits digits = true ->
  check_status (Py.encode (digits +:+ newline))
  = if too_long digits
    then Raises (ValueError (Py.int_limit_message (digits +:+ newline)))
    else Returns (digits_value digits).
Proof.
  intros Hd. rewrite encode_app.
  change (Py.encode newline) with [x0a].
  rewrite check_status_snoc, bytes_isdigit_encode, Hd.
  change (Py.byte_val x0a =? 10) with true. cbn [negb orb].
  unfold Py.int_of_bytes.
  change [x0a] with (Py.encode newline).
  rewrite <- encode_app, decode_encode. unfold newline.
  rewrite (proj2 (int_of_str_all_digits digits Hd)).
  now destruct (too_long digits).
Qed.

Lemma digits_value_nonneg s : all_digits s = true -> 0 <= digits_value s.
Proof.
  intros H%all_digits_forallb. unfold digits_value.
  assert (Hgen : forall l a, forallb Py.is_digit l = true -> 0 <= a ->
            0 <= fold_left (fun a c => 10 * a + (Py.ord c - 48)) l a).
  { induction l as [|c l IH]; intros a Hl Ha; [exact Ha|].
    simpl in Hl. apply andb_true_iff in Hl as [Hc Hl].
    apply is_digit_ord in Hc. simpl. apply IH; [exact Hl|lia]. }
  now apply Hgen.
Qed.

(** [str] writes no more digits than the number has. *)
Lemma str_digits_length f n tl k :
  0 <= k -> 0 <= n < 10 ^ (k + 1) ->
  Z.of_nat (String.length (Py.str_digits f n tl))
  <= k + 1 + Z.of_nat (String.length tl).
Proof.
  revert n tl k. induction f as [|f IH]; intros n tl k Hk Hn; [simpl; lia|].
  rewrite str_digits_S. destruct (Z.eqb_spec (n / 10) 0) as [Hq|Hq].
  - cbn [String.length]. lia.
  - assert (Hk1 : 0 <= k - 1).
    { destruct (Z.eq_dec k 0) as [->|]; [|lia]. exfalso. apply Hq.
      apply Z.div_small. change (10 ^ (0 + 1)) with 10 in Hn. lia. }
    assert (Hdiv : 0 <= n / 10 < 10 ^ (k - 1 + 1)).
    { split; [apply Z.div_pos; lia|].
      apply Z.div_lt_upper_bound; [lia|].
      replace (k - 1 + 1) with k by lia.
      rewrite <- Z.pow_succ_r by lia. now replace (Z.succ k) with (k + 1) by lia. }
    pose proof (IH (n / 10) (String (Py.digit_char (n mod 10)) tl) (k - 1)
                  Hk1 Hdiv) as Hlen.
    cbn [String.length] in Hlen. lia.
Qed.

Lemma str_not_too_long n :
  0 <= n < 10 ^ Py.int_max_str_digits -> too_long (Py.str n) = false.
Proof.
  intros Hn. unfold too_long. apply Z.ltb_ge.
  unfold Py.str. destruct (Z.ltb_spec n 0); [lia|]. unfold Py.str_nonneg.
  pose proof (str_digits_length (S (Z.to_nat (Z.log2 n))) n ""
                (Py.int_max_str_digits - 1) ltac:(unfold Py.int_max_str_digits; lia))
    as Hlen.
  replace (Py.int_max_str_digits - 1 + 1) with Py.int_max_str_digits in Hlen
    by lia.
  specialize (Hlen Hn). cbn [String.length] in Hlen. lia.
Qed.

(** X1.  The status message is read back for every exit status that
    [int] converts, not only up to 255: for every [n] from 0 to below
    10 to the power 4300, the check of [str(n)] and a newline gives [n],
    and so does a run that receives these bytes in any pieces. *)
Theorem status_round_trip_up_to_limit n chunks w command kernel_dir build_dir s :
  0 <= n < 10 ^ Py.int_max_str_digits ->
  concat chunks = guest_status_message n ->
  sends_then_closes chunks (recv_script w) ->
  reaches_handshake w build_dir s ->
  check_status (guest_status_message n) = Returns n
  /\ fst (run_in_vm w command kernel_dir build_dir s) = Returns n.
Proof.
  intros Hn Hmsg Hsend Hreach.
  destruct (str_nonneg_spec n (proj1 Hn)) as [Hd Hv].
  assert (Hcheck : check_status (guest_status_message n) = Returns n).
  { unfold guest_status_message.
    change (String (ascii_of_nat 10) "") with newline.
    now rewrite (check_status_digits _ Hd), (str_not_too_long n Hn), Hv. }
  split; [exact Hcheck|].
  now rewrite (run_in_vm_received _ _ _ _ _ chunks Hreach Hsend), Hmsg.
Qed.

Lemma status_round_trip_up_to_limit_witness :
  check_status (guest_status_message 70000) = Returns 70000
  /\ fst (run_in_vm
            (with_recv_script example_world
               [RecvBytes (Py.encode "7000");
                RecvBytes (Py.encode ("0" +:+ newline)); RecvBytes []])
            "exit 70000" ["/"; "boot"] ["build"; "vmtest"] example_state)
     = Returns 70000.
Proof.
  apply (status_round_trip_up_to_limit 70000
           [Py.encode "7000"; Py.encode ("0" +:+ newline)]).
  - split; [lia|]. apply Z.ltb_lt. vm_compute. reflexivity.
  - reflexivity.
  - split; [repeat constructor; discriminate|].
    exists []. reflexivity.
  - apply example_reaches_handshake.
Defined.

Lemma check_status_snoc_inv status_buf :
  status_buf <> [] ->
  (exists msg, check_status status_buf = Raises (LostVMError msg))
  \/ exists digits,
       all_digits digits = true
       /\ status_buf = Py.encode (digits +:+ newline).
Proof.
  intros Hne. destruct (exists_last Hne) as (l & x & ->).
  rewrite check_status_snoc.
  destruct (Z.eqb_spec (Py.byte_val x) 10) as [Hx|]; [|left; eexists; reflexivity].
  destruct (Py.bytes_isdigit l) eqn:Hl; [|left; eexists; reflexivity].
  right. apply byte_val_newline in Hx. subst x. exists (Py.decode l). split.
  - rewrite <- bytes_isdigit_encode, encode_decode. exact Hl.
  - rewrite encode_app, encode_decode. reflexivity.
Qed.

Lemma check_status_returns_iff status_buf n :
  check_status status_buf = Returns n
  <-> exists digits,
        all_digits digits = true
        /\ too_long digits = false
        /\ status_buf = Py.encode (digits +:+ newline)
        /\ n = digits_value digits.
Proof.
  split.
  - intros H. destruct status_buf as [|b0 rest] eqn:Ebuf; [discriminate|].
    rewrite <- Ebuf in *.
    assert (Hne : status_buf <> []) by (rewrite Ebuf; discriminate).
    destruct (check_status_snoc_inv status_buf Hne)
      as [[msg Hmsg]|(digits & Hd & Hbuf)]; [congruence|].
    exists digits. rewrite Hbuf, (check_status_digits _ Hd) in H.
    destruct (too_long digits); [discriminate|]. injection H as <-. auto.
  - intros (digits & Hd & Hlen & -> & ->).
    now rewrite (check_status_digits _ Hd), Hlen.
Qed.

(** X2.  A received buffer is taken for the status [n] exactly when it is
    one or more ASCII digits, no more than the 4300 that [int] converts,
    followed by one newline, and [n] is the number these digits spell in
    base ten (leading zeros are allowed; signs, spaces, underscores and a
    missing or doubled newline are not). *)
Theorem check_status_accepts_iff status_buf n :
  check_status status_buf = Returns n
  <-> exists digits,
        all_digits digits = true
        /\ too_long digits = false
        /\ status_buf = Py.encode (digits +:+ newline)
        /\ n = digits_value digits.
Proof. apply check_status_returns_iff. Qed.

(** X3.  The check of the status ends in one of three ways: with a
    number that is not negative; with a [LostVMError]; or, for a buffer
    that passes the test on line 277 with more digits than [int]
    converts (more than 4300 digits and a newline), with the
    [ValueError] of [int] on line 279, which is no [LostVMError]. *)
Theorem check_status_outcomes status_buf :
  (exists n, check_status status_buf = Returns n /\ 0 <= n)
  \/ (exists msg, check_status status_buf = Raises (LostVMError msg))
  \/ (exists digits,
         all_digits digits = true
         /\ too_long digits = true
         /\ status_buf = Py.encode (digits +:+ newline)
         /\ check_status status_buf
            = Raises (ValueError (Py.int_limit_message (digits +:+ newline)))).
Proof.
  destruct status_buf as [|b0 rest] eqn:Ebuf;
    [right; left; eexists; reflexivity|].
  rewrite <- Ebuf.
  assert (Hne : status_buf <> []) by (rewrite Ebuf; discriminate).
  destruct (check_status_snoc_inv status_buf Hne)
    as [[msg Hmsg]|(digits & Hd & Hbuf)]; [right; left; eauto|].
  pose proof (check_status_digits _ Hd) as Hc. rewrite <- Hbuf in Hc.
  destruct (too_long digits) eqn:Hlen.
  - right. right. exists digits. auto.
  - left. exists (digits_value digits). split; [exact Hc|].
    now apply digits_value_nonneg.
Qed.

(** ** What the version probe gives *)

Lemma is_digit_not_dot c : Py.is_digit c = true -> Ascii.eqb c "." = false.
Proof.
  intros H%is_digit_ord. apply Ascii.eqb_neq. intros ->.
  change (Py.ord ".") with 46 in H. lia.
Qed.









Lemma strip_prefix_app p s : strip_prefix p (p +:+ s) = Some s.
Proof.
  induction p as [|a p IH]; app_cons; [now destruct s|].
  cbn [strip_prefix]. now rewrite Ascii.eqb_refl.
Qed.

Lemma version_rest_ends rest : ends_version rest = true -> version_rest rest = "".
Proof.
  destruct rest as [|c rest]; [reflexivity|]. cbn [ends_version version_rest].
  intros [Hc Hdot]%andb_true_iff. apply negb_true_iff in Hc. rewrite Hc.
  destruct (Ascii.eqb c "."); [|reflexivity].
  destruct rest as [|d rest]; [reflexivity|].
  simpl in Hdot. apply negb_true_iff in Hdot. now rewrite Hdot.
Qed.

Lemma version_rest_cons c s :
  version_rest (String c s)
  = if Py.is_digit c then String c (version_rest s)
    else if Ascii.eqb c "." then
           match s with
           | String d _ => if Py.is_digit d then String c (version_rest s) else ""
           | EmptyString => ""
           end
         else "".
Proof. reflexivity. Qed.

(** A text that [version_rest] takes whole is taken whole as well when
    something that ends the version follows it. *)
Lemma version_rest_stop t rest :
  version_rest t = t -> ends_version rest = true -> version_rest (t +:+ rest) = t.
Proof.
  intros Ht Hrest. induction t as [|c t IH]; app_cons;
    [now apply version_rest_ends|].
  rewrite version_rest_cons in Ht. rewrite version_rest_cons.
  destruct (Py.is_digit c) eqn:Hc.
  - injection Ht as Ht. now rewrite IH.
  - destruct (Ascii.eqb c "."); [|discriminate].
    destruct t as [|d t]; [discriminate|].
    change (String d t +:+ rest) with (String d (t +:+ rest)) at 1.
    cbv beta iota.
    destruct (Py.is_digit d); [|discriminate].
    injection Ht as Ht. now rewrite IH.
Qed.

Lemma version_rest_digits t :
  forallb Py.is_digit (list_ascii_of_string t) = true -> version_rest t = t.
Proof.
  induction t as [|c t IH]; [reflexivity|]. simpl.
  intros [Hc Ht]%andb_true_iff. now rewrite Hc, IH.
Qed.

Lemma version_rest_join x c t :
  forallb Py.is_digit (list_ascii_of_string x) = true ->
  Py.is_digit c = true -> version_rest t = t ->
  version_rest (x +:+ String "." (String c t)) = x +:+ String "." (String c t).
Proof.
  intros Hx Hc Ht. induction x as [|a x IH]; app_cons.
  - cbn [version_rest]. change (Py.is_digit ".") with false.
    cbv iota. change (Ascii.eqb "." ".") with true. cbv iota.
    now rewrite Hc, Ht.
  - simpl in Hx. apply andb_true_iff in Hx as [Ha Hx].
    cbn [version_rest]. now rewrite Ha, IH.
Qed.

Lemma render_version_shape v :
  v <> [] -> Forall (fun x => 0 <= x) v ->
  exists c t, render_version v = String c t
              /\ Py.is_digit c = true /\ version_rest t = t.
Proof.
  intros Hne Hv. induction Hv as [|x v Hx Hv IH]; [congruence|].
  destruct (str_nonneg_spec x Hx) as [Hd _].
  pose proof (all_digits_forallb _ Hd) as Hall.
  destruct (Py.str x) as [|c t] eqn:Estr; [discriminate|].
  simpl in Hall. apply andb_true_iff in Hall as [Hc Ht].
  destruct v as [|y v].
  - exists c, t. unfold render_version. cbn [map String.concat].
    rewrite Estr. repeat split; [exact Hc|now apply version_rest_digits].
  - destruct (IH ltac:(discriminate)) as (c' & t' & Hr & Hc' & Ht').
    exists c, (t +:+ String "." (render_version (y :: v))).
    unfold render_version in *. cbn [map String.concat] in *.
    rewrite Estr. app_cons. repeat split; [exact Hc|].
    cbn [map String.concat] in Hr. rewrite Hr.
    now apply version_rest_join.
Qed.

Lemma split_dots_cons c s :
  split_dots (String c s)
  = if Ascii.eqb c "." then "" :: split_dots s
    else match split_dots s with
         | x :: xs => String c x :: xs
         | [] => [String c ""]
         end.
Proof. reflexivity. Qed.

Lemma split_dots_no_dot x :
  forallb Py.is_digit (list_ascii_of_string x) = true ->
  split_dots x = [x]
  /\ forall r, split_dots (x +:+ String "." r) = x :: split_dots r.
Proof.
  induction x as [|c x IH]; [now split|].
  cbn [list_ascii_of_string forallb]. intros [Hc Hx]%andb_true_iff.
  destruct (IH Hx) as [IH1 IH2].
  rewrite split_dots_cons, (is_digit_not_dot c Hc), IH1.
  split; [reflexivity|].
  intros r. app_cons.
  now rewrite split_dots_cons, (is_digit_not_dot c Hc), IH2.
Qed.

Lemma split_dots_render v :
  v <> [] -> Forall (fun x => 0 <= x) v ->
  split_dots (render_version v) = map Py.str v.
Proof.
  intros Hne Hv. induction Hv as [|x v Hx Hv IH]; [congruence|].
  destruct (str_nonneg_spec x Hx) as [Hd _].
  pose proof (split_dots_no_dot _ (all_digits_forallb _ Hd)) as [H1 H2].
  destruct v as [|y v].
  - exact H1.
  - unfold render_version in *. cbn [map String.concat] in *. app_cons.
    rewrite H2, IH by discriminate. reflexivity.
Qed.

(** X5.  The probe reads back what QEMU prints: for a version of one or
    more parts, none negative and none of more than the 4300 digits that
    [int] converts, printed after [QEMU emulator version ] and followed
    by anything that does not go on like a version, the match is the
    printed version and the tuple is the version. *)
Theorem probe_reads_rendered_version v rest :
  v <> [] ->
  Forall (fun x => 0 <= x < 10 ^ Py.int_max_str_digits) v ->
  ends_version rest = true ->
  search_version ("QEMU emulator version " +:+ render_version v +:+ rest)
  = Some (render_version v)
  /\ version_tuple (render_version v) = Some v.
Proof.
  intros Hne Hlim Hrest.
  assert (Hv : Forall (fun x => 0 <= x) v)
    by (eapply Forall_impl; [exact Hlim|]; cbv beta; intros x Hx; lia).
  split.
  - destruct (render_version_shape v Hne Hv) as (c & t & Hr & Hc & Ht).
    assert (Hhere : match_version_here
                      ("QEMU emulator version " +:+ render_version v +:+ rest)
                    = Some (render_version v)).
    { unfold match_version_here. rewrite strip_prefix_app, Hr. app_cons.
      cbv beta iota.
      now rewrite Hc, (version_rest_stop t rest Ht Hrest). }
    destruct ("QEMU emulator version " +:+ render_version v +:+ rest);
      cbn [search_version]; now rewrite Hhere.
  - unfold version_tuple. rewrite (split_dots_render v Hne Hv).
    clear Hne Hv. induction Hlim as [|x v Hx Hlim IH]; [reflexivity|].
    destruct (str_nonneg_spec x (proj1 Hx)) as [Hd Hval].
    cbn [map mapM].
    rewrite (proj1 (int_of_str_all_digits _ Hd)), (str_not_too_long x Hx),
      Hval, IH.
    reflexivity.
Qed.

Lemma probe_reads_rendered_version_witness :
  search_version ("QEMU emulator version " +:+ render_version [6; 2; 0]
                  +:+ " (Debian 1:6.2+dfsg-2)")
  = Some (render_version [6; 2; 0])
  /\ version_tuple (render_version [6; 2; 0]) = Some [6; 2; 0].
Proof.
  apply (probe_reads_rendered_version [6; 2; 0] " (Debian 1:6.2+dfsg-2)").
  - discriminate.
  - repeat (constructor;
            [split; [lia|apply Z.ltb_lt; vm_compute; reflexivity]|]).
    constructor.
  - reflexivity.
Defined.

(** ** The order of versions and the flags *)

Lemma tuple_ge_trans a b c :
  Py.tuple_ge a b = true -> Py.tuple_ge b c = true -> Py.tuple_ge a c = true.
Proof.
  revert b c. induction a as [|x a IH]; intros [|y b] [|z c]; simpl;
    try discriminate; try reflexivity.
  destruct (Z.eqb_spec x y) as [->|Hxy], (Z.eqb_spec y z) as [->|Hyz];
    try rewrite Z.eqb_refl.
  - apply IH.
  - destruct (Z.eqb_spec y z); [congruence|]. auto.
  - destruct (Z.eqb_spec x z); [congruence|]. auto.
  - intros H1%Z.ltb_lt H2%Z.ltb_lt.
    destruct (Z.eqb_spec x z); [lia|]. apply Z.ltb_lt. lia.
Qed.

(** X6.  The flags follow the order of versions: a QEMU that is not
    older than one with [multidevs] has [multidevs] too, and a QEMU that
    is not older than one that runs without the shim runs without it
    too. *)
Theorem flags_follow_version_order older newer :
  Py.tuple_ge newer older = true ->
  supportsDeviceRemap older = true ->
  needsTimestampWorkaround older = false ->
  supportsDeviceRemap newer = true
  /\ needsTimestampWorkaround newer = false.
Proof.
  unfold supportsDeviceRemap, needsTimestampWorkaround.
  rewrite !tuple_lt_ge, !negb_false_iff. intros Hge H1 H2. split.
  - now apply (tuple_ge_trans newer older).
  - now apply (tuple_ge_trans newer older).
Qed.

Lemma flags_follow_version_order_witness :
  supportsDeviceRemap [7; 2] = true
  /\ needsTimestampWorkaround [7; 2] = false.
Proof.
  apply (flags_follow_version_order [5; 0; 1] [7; 2]); reflexivity.
Defined.

(** X7.  Every QEMU that is too old for [multidevs] gets the shim: there
    is no version for which [run_in_vm] starts QEMU without
    [multidevs=remap] and without [LD_PRELOAD] set to the shim. *)
Theorem no_remap_means_shim v :
  supportsDeviceRemap v = false -> needsTimestampWorkaround v = true.
Proof.
  unfold supportsDeviceRemap, needsTimestampWorkaround.
  rewrite tuple_lt_ge, negb_true_iff. intros Hno.
  destruct (Py.tuple_ge v [5; 0; 1]) eqn:Hge; [|reflexivity].
  rewrite (tuple_ge_trans v [5; 0; 1] [4; 2] Hge eq_refl) in Hno.
  discriminate.
Qed.

Lemma no_remap_means_shim_witness : needsTimestampWorkaround [4; 1; 9] = true.
Proof. apply (no_remap_means_shim [4; 1; 9]). reflexivity. Defined.

(** ** The shape of a run *)

Lemma recv_loop_trace script buf s :
  exists recvs,
    (1 <= recvs <= S (length script))%nat
    /\ trace (snd (recv_loop script buf s)) = trace s ++ repeat (EvRecv 4) recvs
    /\ fs (snd (recv_loop script buf s)) = fs s.
Proof.
  revert buf s. induction script as [|r script IH]; intros buf s.
  - exists 1%nat. repeat split; simpl; lia.
  - destruct r as [[|b c]| |e].
    + exists 1%nat. repeat split; simpl; lia.
    + destruct (IH (buf ++ b :: c)
                  {| fs := fs s; trace := trace s ++ [EvRecv 4] |})
        as (k & Hk & Htr & Hfs).
      exists (S k). split; [simpl; lia|].
      change (recv_loop (RecvBytes (b :: c) :: script) buf s)
        with (recv_loop script (buf ++ b :: c)
                {| fs := fs s; trace := trace s ++ [EvRecv 4] |}).
      rewrite Htr, Hfs. cbn [fs trace repeat]. now rewrite <- app_assoc.
    + exists 1%nat. repeat split; simpl; lia.
    + exists 1%nat. repeat split; simpl; lia.
Qed.

(** Lines 204 to 279 from a state in which the name of the temporary
    directory is free. *)
Lemma in_temp_dir_cases w command kernel_dir v env s :
  fs s !! mkdtemp w = None ->
  let m :=
    with_TemporaryDirectory w (fun temp_path =>
      with_server_sock (
        let socket_path := joinpath temp_path "socket" in
        sock_bind w socket_path ;;
        emit EvListen ;;
        let init := resolve w (joinpath temp_path "init") in
        write_init w (joinpath temp_path "init") init (init_args_of w command) ;;
        status_buf <-
          with_Popen w
            (qemu_argv (kvm_args_of w) (nproc w) (multidevs v)
               kernel_dir socket_path init)
            env (receive_status w) ;;
        lift_outcome (check_status status_buf))) in
  exists recvs,
    (1 <= recvs <= S (length (recv_script w)))%nat
    /\ trace (snd (m s))
       = trace s ++ launch_events w command kernel_dir v env
         ++ handshake_events w recvs
         ++ [EvServerSockClose; EvRmtree (mkdtemp w)]
    /\ fst (m s) = handshake_result w.
Proof.
  intros Hfree m.
  set (st := {| fs := <[joinpath (mkdtemp w) "init" := now w]>
                         (<[joinpath (mkdtemp w) "socket" := now w]>
                            (<[mkdtemp w := now w]> (fs s)));
                 trace := ((((((((trace s ++ [EvMkdtemp (mkdtemp w)])
                                 ++ [EvBind (joinpath (mkdtemp w) "socket")])
                                ++ [EvListen])
                               ++ [EvWriteInit
                                     (resolve w (joinpath (mkdtemp w) "init"))
                                     (init_args_of w command)])
                              ++ [EvChmod
                                    (resolve w (joinpath (mkdtemp w) "init"))
                                    493])
                             ++ [EvPopen
                                   (qemu_argv (kvm_args_of w) (nproc w)
                                      (multidevs v) kernel_dir
                                      (joinpath (mkdtemp w) "socket")
                                      (resolve w (joinpath (mkdtemp w) "init")))
                                   env])
                            ++ [EvSetTimeout 5]) ++ [EvAccept]) |}).
  destruct (recv_loop_trace (recv_script w) [] st) as (recvs & Hrecvs & Htr & _).
  pose proof (recv_loop_outcome (recv_script w) []
                {| fs := ∅; trace := [] |} st) as Hout.
  exists recvs. split; [exact Hrecvs|].
  unfold m, with_TemporaryDirectory, with_server_sock, with_Popen,
    receive_status, sock_bind, write_init, rmtree, finally, bind, emit,
    get_fs, set_fs, ret, raise, lift_outcome, launch_events,
    handshake_events, handshake_result.
  cbn [fst snd fs trace]. rewrite Hfree. cbn [fst snd fs trace].
  destruct (popen_succeeds w); cbn [fst snd fs trace].
  - destruct (accept_outcome w); cbn [fst snd fs trace].
    + rewrite Hout. fold st.
      destruct (recv_loop (recv_script w) [] st) as [[buf|e] s1];
        cbn [fst snd fs trace] in *; rewrite Htr; unfold st;
        cbn [fs trace]; rewrite <- !app_assoc; split; reflexivity.
    + rewrite <- !app_assoc. split; reflexivity.
  - rewrite <- !app_assoc. split; reflexivity.
Qed.

Lemma probe_version_raises w s e :
  fst (probe_version w s) = Raises e -> is_LostVMError e = false.
Proof.
  unfold probe_version, check_output, bind, emit, lift_option, ret, raise.
  destruct (qemu_version_output w) as [out|]; cbn [fst];
    [|intros [= <-]; now destruct (qemu_installed w)].
  destruct (search_version out) as [g|]; [|intros [= <-]; reflexivity].
  destruct (version_tuple g); [discriminate|intros [= <-]; reflexivity].
Qed.

Lemma qemu_env_raises w v build_dir s e :
  fst (qemu_env w v build_dir s) = Raises e -> is_LostVMError e = false.
Proof.
  unfold qemu_env, _build_onoatimehack, mkdir_parents, _compile, bind, emit,
    get_fs, set_fs, lift_option, ret, raise.
  destruct (needsTimestampWorkaround v); [|discriminate].
  cbn [fst snd fs trace].
  destruct (relative_to _ _); cbn [fst snd fs trace];
    [|intros [= <-]; reflexivity].
  destruct (out_of_date _ _ _); cbn [fst snd fs trace]; [|discriminate].
  destruct (cc_succeeds w); cbn [fst snd fs trace];
    [discriminate|intros [= <-]; reflexivity].
Qed.

(** The events of the build, and the environment that comes of it. *)
Lemma qemu_env_build_events w v build_dir :
  qemu_version_of w = Some v ->
  emits (build_event w build_dir) (fun env => env = qemu_env_of w v build_dir)
    (qemu_env w v build_dir).
Proof.
  intros Hv. set (P := build_event w build_dir).
  unfold qemu_env, qemu_env_of.
  destruct (needsTimestampWorkaround v) eqn:Hneeds; [|now apply emits_ret].
  assert (Hshim : shim_needed w) by now exists v.
  apply (emits_bind P (fun so => so = joinpath build_dir "onoatimehack.so"));
    [|intros so ->; now apply emits_ret].
  unfold _build_onoatimehack, mkdir_parents, _compile.
  apply (emits_bind P (fun _ => True)).
  { apply (emits_bind P (fun _ => True));
      [apply emits_emit; [now split|exact I]|].
    intros _ _. apply (emits_bind P (fun _ => True)); [apply emits_get_fs|].
    intros f _. apply emits_set_fs. }
  intros _ _. apply (emits_bind P (fun _ => True)).
  { apply (emits_weaken P P _ (fun _ => True) _ (emits_lift_option P _ _)); auto. }
  intros c _. apply (emits_bind P (fun _ => True)); [apply emits_get_fs|].
  intros f _. apply (emits_bind P (fun _ => True)).
  { destruct (out_of_date _ _ _); [|now apply emits_ret].
    apply (emits_bind P (fun _ => True));
      [apply emits_emit; [split; [exact Hshim|now exists (path_str c)]|exact I]|].
    intros _ _. destruct (cc_succeeds w); [|apply emits_raise].
    apply (emits_bind P (fun _ => True)); [apply emits_get_fs|].
    intros g _. apply emits_set_fs. }
  intros _ _. now apply emits_ret.
Qed.

Lemma kvm_args_step {A} w (k : list string -> M A) s :
  bind (if dev_kvm_access w
        then ret ["-cpu"; "host"; "-enable-kvm"]
        else
          emit (EvWarning
                  "warning: /dev/kvm cannot be accessed; falling back to emulation") ;;
          ret []) k s
  = k (kvm_args_of w) {| fs := fs s; trace := trace s ++ kvm_warning w |}.
Proof.
  unfold kvm_args_of, kvm_warning. destruct (dev_kvm_access w).
  - unfold bind, ret. rewrite app_nil_r. now destruct s.
  - reflexivity.
Qed.

(** Every run: the events of the version query and of the build, and
    then either an error that is no [LostVMError] (the run ended before
    the temporary directory was made) or the launch, the hand-shake and
    the clean-up, with the result of the hand-shake. *)
Lemma run_in_vm_cases w command kernel_dir build_dir s :
  exists pre,
    Forall (build_event w build_dir) pre
    /\ (((run_events w command kernel_dir build_dir s = pre
          \/ run_events w command kernel_dir build_dir s = pre ++ kvm_warning w)
         /\ (exists e, fst (run_in_vm w command kernel_dir build_dir s) = Raises e
                       /\ is_LostVMError e = false)
         /\ ~ reaches_launch w build_dir s)
        \/ exists v recvs,
             qemu_version_of w = Some v
             /\ (1 <= recvs <= S (length (recv_script w)))%nat
             /\ run_events w command kernel_dir build_dir s
                = pre ++ kvm_warning w
                  ++ launch_events w command kernel_dir v
                       (qemu_env_of w v build_dir)
                  ++ handshake_events w recvs
                  ++ [EvServerSockClose; EvRmtree (mkdtemp w)]
             /\ fst (run_in_vm w command kernel_dir build_dir s)
                = handshake_result w).
Proof.
  unfold run_events.
  remember (run_in_vm w command kernel_dir build_dir s) as R eqn:HR.
  unfold run_in_vm in HR.
  destruct (probe_version_emits (build_event w build_dir) w eq_refl s)
    as (e1 & T1 & F1 & Q1).
  pose proof (probe_version_raises w s) as R1.
  unfold bind at 1 in HR.
  destruct (probe_version w s) as [[v|e] s1] eqn:Hprobe; cbn [fst snd] in *.
  2:{ exists e1. split; [exact F1|left]. subst R. cbn [fst snd].
      rewrite T1, drop_app_length. split; [now left|]. split; [eauto|].
      intros (v' & env' & s1' & s2' & Hp & _).
      rewrite Hprobe in Hp. discriminate Hp. }
  specialize (Q1 v eq_refl).
  destruct (qemu_env_build_events w v build_dir Q1 s1) as (e2 & T2 & F2 & Q2).
  pose proof (qemu_env_raises w v build_dir s1) as R2.
  unfold bind at 1 in HR.
  destruct (qemu_env w v build_dir s1) as [[env|e] s2] eqn:Henv;
    cbn [fst snd] in *.
  2:{ exists (e1 ++ e2). split; [now apply Forall_app|left]. subst R.
      cbn [fst snd]. rewrite T2, T1, <- app_assoc, drop_app_length.
      split; [now left|]. split; [eauto|].
      intros (v' & env' & s1' & s2' & Hp & He & _).
      rewrite Hprobe in Hp. injection Hp as <- <-.
      rewrite Henv in He. discriminate He. }
  specialize (Q2 env eq_refl). subst env.
  rewrite kvm_args_step in HR.
  exists (e1 ++ e2). split; [rewrite !Forall_app; auto|].
  set (s3 := {| fs := fs s2; trace := trace s2 ++ kvm_warning w |}) in *.
  assert (Ht3 : trace s3 = trace s ++ (e1 ++ e2) ++ kvm_warning w)
    by (unfold s3; cbn [trace]; rewrite T2, T1, <- !app_assoc; reflexivity).
  destruct (fs s3 !! mkdtemp w) as [t|] eqn:Hfree.
  - left. unfold with_TemporaryDirectory, bind at 1, get_fs in HR.
    rewrite Hfree in HR. subst R. cbn [fst snd raise].
    rewrite Ht3, drop_app_length. split; [now right|]. split; [eauto|].
    intros (v' & env' & s1' & s2' & Hp & He & Hf).
    rewrite Hprobe in Hp. injection Hp as <- <-.
    rewrite Henv in He. injection He as <- <-.
    unfold s3 in Hfree. cbn [fs] in Hfree. congruence.
  - right. destruct (in_temp_dir_cases w command kernel_dir v
                       (qemu_env_of w v build_dir) s3 Hfree)
      as (recvs & Hrecvs & Htr & Hres).
    exists v, recvs. split; [exact Q1|]. split; [exact Hrecvs|].
    subst R. split.
    + etransitivity; [apply (f_equal (drop (length (trace s)))); exact Htr|].
      rewrite Ht3, <- !app_assoc, drop_app_length. reflexivity.
    + exact Hres.
Qed.

Lemma build_event_setup w build_dir e :
  build_event w build_dir e -> setup_event e.
Proof. now destruct e. Qed.

Lemma kvm_warning_setup w : Forall setup_event (kvm_warning w).
Proof.
  unfold kvm_warning. destruct (dev_kvm_access w); repeat constructor.
Qed.

Lemma handshake_events_in w recvs e :
  In e (handshake_events w recvs) ->
  e = EvSetTimeout 5 \/ e = EvAccept \/ e = EvRecv 4 \/ e = EvSockClose
  \/ e = EvPopenWait.
Proof.
  unfold handshake_events. destruct (popen_succeeds w); [|intros []].
  rewrite !in_app_iff. intros [[<-|[<-|[]]]|[H|[<-|[]]]]; auto.
  destruct (accept_outcome w); [|destruct H].
  apply in_app_iff in H as [H|[<-|[]]]; auto.
  apply repeat_spec in H. auto.
Qed.

(** A run in which something happens that is not part of the set-up went
    on to the launch, the hand-shake and the clean-up. *)
Lemma run_launched w command kernel_dir build_dir s e :
  In e (run_events w command kernel_dir build_dir s) ->
  ~ setup_event e ->
  exists pre v recvs,
    Forall (build_event w build_dir) pre
    /\ qemu_version_of w = Some v
    /\ (1 <= recvs <= S (length (recv_script w)))%nat
    /\ run_events w command kernel_dir build_dir s
       = pre ++ kvm_warning w
         ++ launch_events w command kernel_dir v (qemu_env_of w v build_dir)
         ++ handshake_events w recvs
         ++ [EvServerSockClose; EvRmtree (mkdtemp w)]
    /\ fst (run_in_vm w command kernel_dir build_dir s) = handshake_result w.
Proof.
  intros Hin Hno.
  destruct (run_in_vm_cases w command kernel_dir build_dir s)
    as (pre & Hpre & [(Hev & _ & _)|(v & recvs & Hv & Hr & Hev & Hres)]).
  - exfalso. apply Hno.
    assert (Hall : Forall setup_event (pre ++ kvm_warning w)).
    { apply Forall_app. split; [|apply kvm_warning_setup].
      eapply Forall_impl; [exact Hpre|apply build_event_setup]. }
    rewrite List.Forall_forall in Hall. apply Hall.
    destruct Hev as [Hev|Hev]; rewrite Hev in Hin;
      [apply in_app_iff; now left|exact Hin].
  - exists pre, v, recvs. auto.
Qed.

Lemma setup_prefix w build_dir pre :
  Forall (build_event w build_dir) pre -> Forall setup_event (pre ++ kvm_warning w).
Proof.
  intros Hpre. apply Forall_app. split; [|apply kvm_warning_setup].
  eapply Forall_impl; [exact Hpre|apply build_event_setup].
Qed.

Lemma not_in_setup (l : list event) e :
  Forall setup_event l -> ~ setup_event e -> ~ In e l.
Proof.
  intros Hl He Hin. rewrite List.Forall_forall in Hl. exact (He (Hl e Hin)).
Qed.

(** The only [Popen] of a run is the one of the launch. *)
Lemma popen_of_run w command kernel_dir build_dir s argv env :
  In (EvPopen argv env) (run_events w command kernel_dir build_dir s) ->
  exists pre v recvs,
    Forall (build_event w build_dir) pre
    /\ qemu_version_of w = Some v
    /\ (1 <= recvs <= S (length (recv_script w)))%nat
    /\ argv = qemu_argv (kvm_args_of w) (nproc w) (multidevs v) kernel_dir
                (joinpath (mkdtemp w) "socket")
                (resolve w (joinpath (mkdtemp w) "init"))
    /\ env = qemu_env_of w v build_dir
    /\ run_events w command kernel_dir build_dir s
       = pre ++ kvm_warning w
         ++ launch_events w command kernel_dir v (qemu_env_of w v build_dir)
         ++ handshake_events w recvs
         ++ [EvServerSockClose; EvRmtree (mkdtemp w)]
    /\ fst (run_in_vm w command kernel_dir build_dir s) = handshake_result w.
Proof.
  intros Hin.
  destruct (run_launched _ _ _ _ _ _ Hin (fun H => H))
    as (pre & v & recvs & Hpre & Hv & Hr & Hev & Hres).
  exists pre, v, recvs. rewrite Hev in Hin.
  rewrite app_assoc in Hin. apply in_app_iff in Hin as [Hin|Hin].
  { destruct (not_in_setup _ (EvPopen argv env) (setup_prefix w build_dir pre Hpre)
                (fun H => H) Hin). }
  apply in_app_iff in Hin as [Hin|Hin].
  - unfold launch_events in Hin. cbn [In] in Hin.
    destruct Hin as [H|[H|[H|[H|[H|[H|[]]]]]]]; try discriminate H.
    injection H as <- <-. auto 10.
  - apply in_app_iff in Hin as [Hin|Hin].
    + apply handshake_events_in in Hin.
      destruct Hin as [H|[H|[H|[H|H]]]]; discriminate H.
    + destruct Hin as [H|[H|[]]]; discriminate H.
Qed.

Lemma path_str_relative (x : string) (p : Path) :
  x <> "/" -> path_str (x :: p) = String.concat "/" (x :: p).
Proof.
  intros Hne. unfold path_str.
  destruct x as [|a x']; [reflexivity|].
  destruct a as [[] [] [] [] [] [] [] []]; try reflexivity.
  destruct x'; [now destruct Hne|reflexivity].
Qed.

Lemma path_str_joinpath_vmlinuz (p : Path) :
  exists dir, path_str (joinpath p "vmlinuz") = dir +:+ "vmlinuz".
Proof.
  assert (Hc : forall q : Path,
             exists dir, String.concat "/" (q ++ ["vmlinuz"]) = dir +:+ "vmlinuz").
  { induction q as [|x q [dir IH]]; [now exists ""|].
    cbn [app String.concat].
    destruct (q ++ ["vmlinuz"]) eqn:E; [now destruct q|].
    exists (x +:+ "/" +:+ dir). rewrite IH. now rewrite !string_app_assoc. }
  unfold joinpath. destruct p as [|x p]; [now exists ""|].
  cbn [app]. destruct (String.eqb_spec x "/") as [->|Hne].
  - destruct (Hc p) as [dir Hdir]. exists ("/" +:+ dir).
    change (path_str ("/" :: p ++ ["vmlinuz"]))
      with ("/" +:+ String.concat "/" (p ++ ["vmlinuz"])).
    now rewrite Hdir, string_app_assoc.
  - rewrite (path_str_relative x _ Hne). apply (Hc (x :: p)).
Qed.

(** X8.  QEMU is started on a prepared stage.  Whenever a run starts
    QEMU, the five steps right before it are, in this order: making the
    temporary directory, binding the socket in it, listening on it,
    writing the init script, and making the script executable (mode
    0o755); only the version query, the build of the shim and the KVM
    warning come earlier.  The socket is named as the temporary directory
    is, the init script by what [resolve] makes of its path in the
    temporary directory (line 212), and the arguments of QEMU name the
    socket and the script in just these ways, and the kernel [vmlinuz] in
    the given directory. *)
Theorem qemu_starts_after_preparation w command kernel_dir build_dir s argv env :
  In (EvPopen argv env) (run_events w command kernel_dir build_dir s) ->
  let socket_path := joinpath (mkdtemp w) "socket" in
  let init := resolve w (joinpath (mkdtemp w) "init") in
  exists pre post,
    run_events w command kernel_dir build_dir s
    = pre ++ [EvMkdtemp (mkdtemp w); EvBind socket_path; EvListen;
              EvWriteInit init (init_args_of w command); EvChmod init 493;
              EvPopen argv env] ++ post
    /\ Forall setup_event pre
    /\ In ("socket,id=vmtest,path=" +:+ path_str socket_path) argv
    /\ (exists opts, last argv = Some (opts +:+ "init=" +:+ path_str init))
    /\ In (path_str (joinpath kernel_dir "vmlinuz")) argv.
Proof.
  intros Hin socket_path init.
  destruct (popen_of_run _ _ _ _ _ _ _ Hin)
    as (pre & v & recvs & Hpre & Hv & Hr & -> & -> & Hev & Hres).
  exists (pre ++ kvm_warning w),
    (handshake_events w recvs ++ [EvServerSockClose; EvRmtree (mkdtemp w)]).
  split; [|split; [now apply (setup_prefix w build_dir)|]].
  { rewrite Hev, <- !app_assoc. reflexivity. }
  unfold qemu_argv. split; [|split].
  - rewrite !in_app_iff. right. right. cbn [In]. auto 30.
  - exists ("rootfstype=9p rootflags=trans=virtio,cache=loose,msize="
            +:+ Py.str _9PFS_MSIZE
            +:+ " ro console=0,115200 panic=-1 crashkernel=256M ").
    rewrite !app_assoc.
    match goal with
    | |- last (?l ++ ?r) = _ =>
        change (last (l ++ r)) with (last (l ++ removelast r ++ [List.last r ""]))
    end.
    cbn [removelast List.last]. rewrite !app_assoc. rewrite last_snoc.
    reflexivity.
  - rewrite !in_app_iff. right. right. cbn [In]. auto 30.
Qed.

Lemma qemu_starts_after_preparation_witness :
  let w := example_world in
  let argv := qemu_argv (kvm_args_of w) (nproc w) (multidevs [4; 2; 1])
                ["/"; "boot"] ["/"; "tmp"; "drgn-vmtest-k3x9"; "socket"]
                ["/"; "private"; "tmp"; "drgn-vmtest-k3x9"; "init"] in
  let env := preload_env w ["build"; "vmtest"] in
  let socket_path := ["/"; "tmp"; "drgn-vmtest-k3x9"; "socket"] in
  let init := ["/"; "private"; "tmp"; "drgn-vmtest-k3x9"; "init"] in
  exists pre post,
    run_events w "exit 255" ["/"; "boot"] ["build"; "vmtest"] example_state
    = pre ++ [EvMkdtemp (mkdtemp w); EvBind socket_path; EvListen;
              EvWriteInit init (init_args_of w "exit 255"); EvChmod init 493;
              EvPopen argv env] ++ post
    /\ Forall setup_event pre
    /\ In "socket,id=vmtest,path=/tmp/drgn-vmtest-k3x9/socket" argv
    /\ (exists opts,
          last argv
          = Some (opts +:+ "init=/private/tmp/drgn-vmtest-k3x9/init"))
    /\ In "/boot/vmlinuz" argv.
Proof.
  intros w argv env.
  apply (qemu_starts_after_preparation w "exit 255" ["/"; "boot"]
           ["build"; "vmtest"] example_state argv env).
  apply (nth_error_In _ 8). vm_compute. reflexivity.
Defined.

Lemma filter_setup (f : event -> bool) (l : list event) :
  (forall e, setup_event e -> f e = false) ->
  Forall setup_event l -> List.filter f l = [].
Proof.
  intros Hf. induction 1 as [|e l He _ IH]; [reflexivity|].
  cbn [List.filter]. now rewrite (Hf e He).
Qed.

Lemma filter_repeat (f : event -> bool) (e : event) (n : nat) :
  f e = false -> List.filter f (repeat e n) = [].
Proof.
  intros Hf. induction n as [|n IH]; [reflexivity|].
  cbn [repeat List.filter]. now rewrite Hf.
Qed.

(** X9.  One run starts at most one QEMU, on at most one temporary
    directory, and calls [accept] at most once: nothing is retried. *)
Theorem at_most_one_qemu w command kernel_dir build_dir s :
  let evs := run_events w command kernel_dir build_dir s in
  (length (List.filter is_mkdtemp evs) <= 1)%nat
  /\ (length (List.filter is_popen evs) <= 1)%nat
  /\ (length (List.filter is_accept evs) <= 1)%nat.
Proof.
  intros evs.
  assert (H1 : forall e, setup_event e -> is_mkdtemp e = false)
    by (intros []; (reflexivity || intros [])).
  assert (H2 : forall e, setup_event e -> is_popen e = false)
    by (intros []; (reflexivity || intros [])).
  assert (H3 : forall e, setup_event e -> is_accept e = false)
    by (intros []; (reflexivity || intros [])).
  destruct (run_in_vm_cases w command kernel_dir build_dir s)
    as (pre & Hpre & [(Hev & _ & _)|(v & recvs & Hv & Hr & Hev & Hres)]).
  - assert (Hall : Forall setup_event evs).
    { unfold evs. destruct Hev as [-> | ->]; [|now apply (setup_prefix w build_dir)].
      eapply Forall_impl; [exact Hpre|apply build_event_setup]. }
    rewrite (filter_setup _ _ H1 Hall), (filter_setup _ _ H2 Hall),
      (filter_setup _ _ H3 Hall). cbn. lia.
  - pose proof (setup_prefix w build_dir pre Hpre) as Hall.
    unfold evs. rewrite Hev, app_assoc, !(List.filter_app _ (pre ++ _)).
    rewrite (filter_setup _ _ H1 Hall), (filter_setup _ _ H2 Hall),
      (filter_setup _ _ H3 Hall).
    unfold launch_events, handshake_events.
    destruct (popen_succeeds w); [|cbn; lia].
    destruct (accept_outcome w); [|cbn; lia].
    rewrite !List.filter_app.
    rewrite !filter_repeat by reflexivity. cbn. lia.
Qed.

(** X10.  [accept] never waits without a limit, and never for a QEMU
    that did not start: whenever a run calls [accept], QEMU was started
    successfully, and the two calls right before the [accept] are the
    start of QEMU and [settimeout(5)]. *)
Theorem accept_is_timed_and_after_start w command kernel_dir build_dir s :
  In EvAccept (run_events w command kernel_dir build_dir s) ->
  popen_succeeds w = true
  /\ exists pre argv env post,
       run_events w command kernel_dir build_dir s
       = pre ++ [EvPopen argv env; EvSetTimeout 5; EvAccept] ++ post.
Proof.
  intros Hin.
  destruct (run_launched _ _ _ _ _ _ Hin (fun H => H))
    as (pre & v & recvs & Hpre & Hv & Hr & Hev & Hres).
  rewrite Hev in Hin. unfold handshake_events in Hev, Hin.
  destruct (popen_succeeds w).
  - split; [reflexivity|]. rewrite Hev. unfold launch_events.
    eexists (pre ++ kvm_warning w ++ [_; _; _; _; _]), _, _, _.
    rewrite <- !app_assoc. cbn [app]. reflexivity.
  - exfalso. rewrite app_assoc in Hin. apply in_app_iff in Hin as [Hin|Hin].
    + exact (not_in_setup _ EvAccept (setup_prefix w build_dir pre Hpre) (fun H => H) Hin).
    + unfold launch_events in Hin. cbn [In app] in Hin.
      repeat (destruct Hin as [Hin|Hin]; [discriminate Hin|]). exact Hin.
Qed.

Lemma accept_is_timed_and_after_start_witness :
  popen_succeeds example_world = true
  /\ exists pre argv env post,
       run_events example_world "exit 255" ["/"; "boot"] ["build"; "vmtest"]
         example_state
       = pre ++ [EvPopen argv env; EvSetTimeout 5; EvAccept] ++ post.
Proof.
  apply (accept_is_timed_and_after_start example_world "exit 255"
           ["/"; "boot"] ["build"; "vmtest"] example_state).
  apply (nth_error_In _ 10). vm_compute. reflexivity.
Defined.

(** X11.  What a run holds is let go in the reverse order of taking it:
    whenever a connection was accepted (the run called [recv]), the last
    four things the run does are closing the connection, waiting for
    QEMU, closing the listening socket and removing the temporary
    directory, and none of the four happens earlier.  This holds however
    the run ends. *)
Theorem release_in_reverse_order w command kernel_dir build_dir s :
  In (EvRecv 4) (run_events w command kernel_dir build_dir s) ->
  exists pre,
    run_events w command kernel_dir build_dir s = pre ++ release_events w
    /\ Forall (fun e => ~ In e (release_events w)) pre.
Proof.
  intros Hin.
  destruct (run_launched _ _ _ _ _ _ Hin (fun H => H))
    as (pre & v & recvs & Hpre & Hv & Hr & Hev & Hres).
  rewrite Hev in Hin. unfold handshake_events in Hev, Hin.
  assert (Hno : forall e, setup_event e -> ~ In e (release_events w)).
  { intros e He [H|[H|[H|[H|[]]]]]; subst e; exact He. }
  assert (Hacc : popen_succeeds w = true /\ accept_outcome w = Accepted).
  { destruct (popen_succeeds w), (accept_outcome w); auto; exfalso;
      rewrite app_assoc in Hin; apply in_app_iff in Hin as [Hin|Hin];
      try exact (not_in_setup _ (EvRecv 4) (setup_prefix w build_dir pre Hpre)
                   (fun H => H) Hin);
      unfold launch_events in Hin; cbn [In app] in Hin;
      repeat (destruct Hin as [Hin|Hin]; [discriminate Hin|]); exact Hin. }
  destruct Hacc as [Hp Ha]. rewrite Hp, Ha in Hev.
  exists (pre ++ kvm_warning w
          ++ launch_events w command kernel_dir v (qemu_env_of w v build_dir)
          ++ [EvSetTimeout 5; EvAccept] ++ repeat (EvRecv 4) recvs).
  split.
  - rewrite Hev, <- !app_assoc. reflexivity.
  - rewrite app_assoc. apply Forall_app. split.
    + eapply Forall_impl; [exact (setup_prefix w build_dir pre Hpre)|exact Hno].
    + apply Forall_app. split.
      * unfold launch_events.
        repeat constructor; intros [H|[H|[H|[H|[]]]]]; discriminate H.
      * apply Forall_app. split.
        -- repeat constructor; intros [H|[H|[H|[H|[]]]]]; discriminate H.
        -- apply List.Forall_forall. intros e He. apply repeat_spec in He.
           subst e. intros [H|[H|[H|[H|[]]]]]; discriminate H.
Qed.

Lemma release_in_reverse_order_witness :
  exists pre,
    run_events example_world "exit 255" ["/"; "boot"] ["build"; "vmtest"]
      example_state
    = pre ++ release_events example_world
    /\ Forall (fun e => ~ In e (release_events example_world)) pre.
Proof.
  apply (release_in_reverse_order example_world "exit 255" ["/"; "boot"]
           ["build"; "vmtest"] example_state).
  apply (nth_error_In _ 11). vm_compute. reflexivity.
Defined.

Lemma str_not_enable_kvm n : Py.str n <> "-enable-kvm".
Proof.
  intros H. destruct (Z.ltb_spec n 0) as [Hneg|Hpos].
  - pose proof (str_nonneg_spec (- n) ltac:(lia)) as [Hd _].
    unfold Py.str in H, Hd.
    destruct (Z.ltb_spec n 0); [|lia]. destruct (Z.ltb_spec (- n) 0); [lia|].
    injection H as H. rewrite H in Hd. discriminate Hd.
  - pose proof (str_nonneg_spec n Hpos) as [Hd _].
    rewrite H in Hd. discriminate Hd.
Qed.

Lemma write_init_of_run w command kernel_dir build_dir pre v recvs p a :
  Forall (build_event w build_dir) pre ->
  In (EvWriteInit p a)
    (pre ++ kvm_warning w
     ++ launch_events w command kernel_dir v (qemu_env_of w v build_dir)
     ++ handshake_events w recvs
     ++ [EvServerSockClose; EvRmtree (mkdtemp w)]) ->
  p = resolve w (joinpath (mkdtemp w) "init") /\ a = init_args_of w command.
Proof.
  intros Hpre Hin. rewrite app_assoc in Hin.
  apply in_app_iff in Hin as [Hin|Hin].
  { destruct (not_in_setup _ (EvWriteInit p a) (setup_prefix w build_dir pre Hpre)
                (fun H => H) Hin). }
  apply in_app_iff in Hin as [Hin|Hin].
  - unfold launch_events in Hin. cbn [In] in Hin.
    destruct Hin as [H|[H|[H|[H|[H|[H|[]]]]]]]; try discriminate H.
    injection H as <- <-. auto.
  - apply in_app_iff in Hin as [Hin|Hin].
    + apply handshake_events_in in Hin.
      destruct Hin as [H|[H|[H|[H|H]]]]; discriminate H.
    + destruct Hin as [H|[H|[]]]; discriminate H.
Qed.

(** X12.  Hardware virtualisation, the warning and the init script agree.
    In a run that starts QEMU: [-enable-kvm] is among the arguments
    exactly when [/dev/kvm] can be read and written; the warning about
    falling back to emulation is printed exactly when it cannot; and
    every init script the run writes exports [KDUMP_NEEDS_NOSMP=1]
    exactly when it cannot, and has an empty line there otherwise. *)
Theorem kvm_flag_and_nosmp_agree w command kernel_dir build_dir s argv env :
  In (EvPopen argv env) (run_events w command kernel_dir build_dir s) ->
  (In "-enable-kvm" argv <-> dev_kvm_access w = true)
  /\ (In (EvWarning
            "warning: /dev/kvm cannot be accessed; falling back to emulation")
         (run_events w command kernel_dir build_dir s)
      <-> dev_kvm_access w = false)
  /\ (forall p a,
         In (EvWriteInit p a) (run_events w command kernel_dir build_dir s) ->
         init_kdump_needs_nosmp a
         = if dev_kvm_access w then "" else "export KDUMP_NEEDS_NOSMP=1").
Proof.
  intros Hin.
  destruct (popen_of_run _ _ _ _ _ _ _ Hin)
    as (pre & v & recvs & Hpre & Hv & Hr & -> & -> & Hev & Hres).
  split; [|split].
  - unfold qemu_argv, kvm_args_of. destruct (dev_kvm_access w).
    + split; [reflexivity|]. intros _. cbn [In app]. auto.
    + split; [|discriminate]. intros H. exfalso. cbn [In app] in H.
      destruct (path_str_joinpath_vmlinuz kernel_dir) as [dir Hdir].
      rewrite Hdir in H.
      repeat (destruct H as [H|H];
              [first [discriminate H
                     |exact (str_not_enable_kvm _ H)
                     |app_cons; discriminate H
                     |idtac]|]); [|exact H].
      do 12 (destruct dir as [|? dir]; [app_cons; discriminate H|]).
      app_cons. discriminate H.
  - rewrite Hev. unfold kvm_warning. destruct (dev_kvm_access w).
    + split; [|discriminate]. intros H. exfalso.
      rewrite app_nil_l in H. apply in_app_iff in H as [H|H].
      * rewrite List.Forall_forall in Hpre. exact (Hpre _ H).
      * apply in_app_iff in H as [H|H].
        -- unfold launch_events in H. cbn [In] in H.
           repeat (destruct H as [H|H]; [discriminate H|]). exact H.
        -- apply in_app_iff in H as [H|H].
           ++ apply handshake_events_in in H.
              destruct H as [H|[H|[H|[H|H]]]]; discriminate H.
           ++ destruct H as [H|[H|[]]]; discriminate H.
    + split; [reflexivity|]. intros _. apply in_app_iff. right. now left.
  - intros p a Ha. rewrite Hev in Ha.
    destruct (write_init_of_run _ _ _ _ _ _ _ _ _ Hpre Ha) as [_ ->].
    unfold init_args_of, kvm_args_of. cbn [init_kdump_needs_nosmp].
    now destruct (dev_kvm_access w).
Qed.

Lemma kvm_flag_and_nosmp_agree_witness :
  let w := example_world in
  let argv := qemu_argv (kvm_args_of w) (nproc w) (multidevs [4; 2; 1])
                ["/"; "boot"] (joinpath (mkdtemp w) "socket")
                (resolve w (joinpath (mkdtemp w) "init")) in
  let evs := run_events w "exit 255" ["/"; "boot"] ["build"; "vmtest"]
               example_state in
  (In "-enable-kvm" argv <-> dev_kvm_access w = true)
  /\ (In (EvWarning
            "warning: /dev/kvm cannot be accessed; falling back to emulation")
         evs
      <-> dev_kvm_access w = false)
  /\ (forall p a,
         In (EvWriteInit p a) evs ->
         init_kdump_needs_nosmp a
         = if dev_kvm_access w then "" else "export KDUMP_NEEDS_NOSMP=1").
Proof.
  intros w argv evs.
  apply (kvm_flag_and_nosmp_agree w "exit 255" ["/"; "boot"]
           ["build"; "vmtest"] example_state argv
           (preload_env w ["build"; "vmtest"])).
  apply (nth_error_In _ 8). vm_compute. reflexivity.
Defined.

(** X13.  The version that was probed is the one that decides how QEMU
    is started: in a run that starts QEMU, the output of
    [qemu-system-x86_64 -version] gives a version tuple, the option of
    the root file system of the guest ends in [,multidevs=remap] exactly
    when that tuple is at least (4, 2), and the environment of QEMU is
    the one of the host, unchanged, exactly when the shim is not needed
    for that tuple, and the one with the shim preloaded otherwise. *)
Theorem launch_follows_probed_version w command kernel_dir build_dir s argv env :
  In (EvPopen argv env) (run_events w command kernel_dir build_dir s) ->
  exists qemu_version,
    qemu_version_of w = Some qemu_version
    /\ In ("local,id=root,path=/,mount_tag=/dev/root,security_model=none,readonly=on"
           +:+ (if supportsDeviceRemap qemu_version then ",multidevs=remap"
                else "")) argv
    /\ env = (if needsTimestampWorkaround qemu_version
              then preload_env w build_dir else environ w).
Proof.
  intros Hin.
  destruct (popen_of_run _ _ _ _ _ _ _ Hin)
    as (pre & v & recvs & Hpre & Hv & Hr & -> & -> & Hev & Hres).
  exists v. split; [exact Hv|]. split; [|reflexivity].
  unfold qemu_argv, multidevs. rewrite !in_app_iff. right. right.
  cbn [In]. auto 20.
Qed.

Lemma launch_follows_probed_version_witness :
  let w := example_world in
  let argv := qemu_argv (kvm_args_of w) (nproc w) (multidevs [4; 2; 1])
                ["/"; "boot"] (joinpath (mkdtemp w) "socket")
                (resolve w (joinpath (mkdtemp w) "init")) in
  let env := preload_env w ["build"; "vmtest"] in
  exists qemu_version,
    qemu_version_of w = Some qemu_version
    /\ In ("local,id=root,path=/,mount_tag=/dev/root,security_model=none,readonly=on"
           +:+ (if supportsDeviceRemap qemu_version then ",multidevs=remap"
                else "")) argv
    /\ env = (if needsTimestampWorkaround qemu_version
              then preload_env w ["build"; "vmtest"] else environ w).
Proof.
  intros w argv env.
  apply (launch_follows_probed_version w "exit 255" ["/"; "boot"]
           ["build"; "vmtest"] example_state argv env).
  apply (nth_error_In _ 8). vm_compute. reflexivity.
Defined.

(** ** How a run can end *)

Lemma received_eq w s :
  fst (recv_loop (recv_script w) [] s) = received w.
Proof. apply recv_loop_outcome. Qed.

Lemma recv_loop_raises script buf s e :
  fst (recv_loop script buf s) = Raises e -> In (RecvError e) script.
Proof.
  revert buf s. induction script as [|r script IH]; intros buf s H.
  - discriminate H.
  - destruct r as [[|b c]| |e']; try discriminate H.
    + right. exact (IH _ _ H).
    + injection H as ->. now left.
Qed.

Lemma check_status_lost status_buf msg :
  check_status status_buf = Raises (LostVMError msg) ->
  (status_buf = [] /\ msg = "VM did not return status")
  \/ (status_buf <> []
      /\ msg = "VM returned invalid status: "
               +:+ Py.slice 11 1 (Py.repr_bytearray status_buf)).
Proof.
  destruct status_buf as [|b0 rest] eqn:E.
  - intros [= <-]. now left.
  - rewrite <- E. intros H. right. split; [rewrite E; discriminate|].
    unfold check_status in H. rewrite E in H. rewrite <- E in H.
    destruct (negb _ || negb _); [now injection H as <-|].
    destruct (Py.int_of_bytes status_buf); discriminate H.
Qed.

Lemma run_lost_inv w command kernel_dir build_dir s msg :
  fst (run_in_vm w command kernel_dir build_dir s) = Raises (LostVMError msg) ->
  popen_succeeds w = true
  /\ exists pre argv env mid,
       run_events w command kernel_dir build_dir s
       = pre ++ [EvPopen argv env; EvSetTimeout 5; EvAccept] ++ mid
         ++ [EvPopenWait; EvServerSockClose; EvRmtree (mkdtemp w)].
Proof.
  intros Hlost.
  destruct (run_in_vm_cases w command kernel_dir build_dir s)
    as (pre & Hpre & [(_ & (e & He & Hno) & _)|(v & recvs & Hv & Hr & Hev & Hres)]).
  - rewrite Hlost in He. injection He as <-. discriminate Hno.
  - rewrite Hlost in Hres. unfold handshake_result in Hres.
    unfold handshake_events in Hev.
    destruct (popen_succeeds w); [|discriminate Hres].
    split; [reflexivity|]. rewrite Hev. unfold launch_events.
    eexists (pre ++ kvm_warning w ++ [_; _; _; _; _]), _, _,
      (match accept_outcome w with
       | Accepted => repeat (EvRecv 4) recvs ++ [EvSockClose]
       | AcceptTimeout => []
       end).
    rewrite <- !app_assoc. cbn [app]. reflexivity.
Qed.

(** X14.  A [LostVMError] always means that a virtual machine was
    started and lost: when a run ends with this error, QEMU had been
    started successfully and [accept] had been called, and QEMU was
    waited for and the temporary directory removed before the error left
    [run_in_vm].  Failing to find or probe QEMU, to build the shim, to
    make the temporary directory or to start QEMU never shows as a
    [LostVMError]. *)
Theorem lost_vm_only_after_start w command kernel_dir build_dir s msg :
  fst (run_in_vm w command kernel_dir build_dir s) = Raises (LostVMError msg) ->
  popen_succeeds w = true
  /\ exists pre argv env mid,
       run_events w command kernel_dir build_dir s
       = pre ++ [EvPopen argv env; EvSetTimeout 5; EvAccept] ++ mid
         ++ [EvPopenWait; EvServerSockClose; EvRmtree (mkdtemp w)].
Proof. apply run_lost_inv. Qed.

Lemma lost_vm_only_after_start_witness :
  let w := with_recv_script example_world [RecvBytes []] in
  popen_succeeds w = true
  /\ exists pre argv env mid,
       run_events w "true" ["/"; "boot"] ["build"; "vmtest"] example_state
       = pre ++ [EvPopen argv env; EvSetTimeout 5; EvAccept] ++ mid
         ++ [EvPopenWait; EvServerSockClose; EvRmtree (mkdtemp w)].
Proof.
  apply (lost_vm_only_after_start
           (with_recv_script example_world [RecvBytes []]) "true"
           ["/"; "boot"] ["build"; "vmtest"] example_state
           "VM did not return status").
  vm_compute. reflexivity.
Defined.

(** X15.  The three ways to lose a virtual machine.  When no [recv]
    raises a [LostVMError] of its own, a run that ends with
    [LostVMError] ends in one of three ways, each with its own text:
    QEMU did not connect before [accept] timed out; the connection was
    closed before anything was received; or what was received is not a
    status, and then the text shows it as [repr] does, without the
    [bytearray(b] in front and the bracket at the end. *)
Theorem lost_vm_messages w command kernel_dir build_dir s msg :
  fst (run_in_vm w command kernel_dir build_dir s) = Raises (LostVMError msg) ->
  Forall recv_not_lost (recv_script w) ->
  (accept_outcome w = AcceptTimeout
   /\ msg = "QEMU did not connect within 5.0 seconds")
  \/ (accept_outcome w = Accepted
      /\ received w = Returns []
      /\ msg = "VM did not return status")
  \/ (accept_outcome w = Accepted
      /\ exists status_buf,
           received w = Returns status_buf
           /\ status_buf <> []
           /\ (forall digits, all_digits digits = true ->
                              status_buf <> Py.encode (digits +:+ newline))
           /\ msg = "VM returned invalid status: "
                    +:+ Py.slice 11 1 (Py.repr_bytearray status_buf)).
Proof.
  intros Hlost Hscript.
  destruct (run_in_vm_cases w command kernel_dir build_dir s)
    as (pre & Hpre & [(_ & (e & He & Hno) & _)|(v & recvs & Hv & Hr & Hev & Hres)]).
  - rewrite Hlost in He. injection He as <-. discriminate Hno.
  - rewrite Hlost in Hres. unfold handshake_result in Hres.
    destruct (popen_succeeds w); [|discriminate Hres].
    destruct (accept_outcome w); [|left; now injection Hres as <-].
    right. fold (received w) in Hres.
    destruct (received w) as [status_buf|e] eqn:Hrecv.
    + symmetry in Hres. destruct (check_status_lost _ _ Hres) as [[-> ->]|[Hne ->]].
      * now left.
      * right. split; [reflexivity|]. exists status_buf.
        split; [reflexivity|]. split; [exact Hne|]. split; [|reflexivity].
        intros digits Hd ->. rewrite (check_status_digits _ Hd) in Hres.
        destruct (too_long digits); discriminate Hres.
    + exfalso. injection Hres as <-.
      apply recv_loop_raises in Hrecv.
      rewrite List.Forall_forall in Hscript.
      specialize (Hscript _ Hrecv). discriminate Hscript.
Qed.

Lemma lost_vm_messages_witness :
  let w := with_recv_script example_world
             [RecvBytes (Py.encode "ab"); RecvReset] in
  (accept_outcome w = AcceptTimeout
   /\ "VM returned invalid status: 'ab'"
      = "QEMU did not connect within 5.0 seconds")
  \/ (accept_outcome w = Accepted
      /\ received w = Returns []
      /\ "VM returned invalid status: 'ab'" = "VM did not return status")
  \/ (accept_outcome w = Accepted
      /\ exists status_buf,
           received w = Returns status_buf
           /\ status_buf <> []
           /\ (forall digits, all_digits digits = true ->
                              status_buf <> Py.encode (digits +:+ newline))
           /\ "VM returned invalid status: 'ab'"
              = "VM returned invalid status: "
                +:+ Py.slice 11 1 (Py.repr_bytearray status_buf)).
Proof.
  apply (lost_vm_messages
           (with_recv_script example_world
              [RecvBytes (Py.encode "ab"); RecvReset])
           "true" ["/"; "boot"] ["build"; "vmtest"] example_state).
  - vm_compute. reflexivity.
  - repeat constructor.
Defined.

Lemma run_returns_inv w command kernel_dir build_dir s n :
  fst (run_in_vm w command kernel_dir build_dir s) = Returns n ->
  0 <= n
  /\ popen_succeeds w = true
  /\ accept_outcome w = Accepted
  /\ exists digits,
       all_digits digits = true
       /\ n = digits_value digits
       /\ received w = Returns (Py.encode (digits +:+ newline)).
Proof.
  intros Hret.
  destruct (run_in_vm_cases w command kernel_dir build_dir s)
    as (pre & Hpre & [(_ & (e & He & _) & _)|(v & recvs & Hv & Hr & Hev & Hres)]).
  - rewrite Hret in He. discriminate He.
  - rewrite Hret in Hres. unfold handshake_result in Hres.
    destruct (popen_succeeds w); [|discriminate Hres].
    destruct (accept_outcome w); [|discriminate Hres].
    fold (received w) in Hres.
    destruct (received w) as [status_buf|e]; [|discriminate Hres].
    symmetry in Hres. apply check_status_returns_iff in Hres
      as (digits & Hd & _ & -> & ->).
    split; [now apply digits_value_nonneg|]. eauto 10.
Qed.

(** X16.  A number is returned only for a status that was received: when
    a run returns [n], QEMU had started and connected, [n] is not
    negative, and the bytes collected from the connection are the
    decimal digits of [n] (leading zeros allowed) and one newline,
    nothing else. *)
Theorem returned_status_was_received w command kernel_dir build_dir s n :
  fst (run_in_vm w command kernel_dir build_dir s) = Returns n ->
  0 <= n
  /\ popen_succeeds w = true
  /\ accept_outcome w = Accepted
  /\ exists digits,
       all_digits digits = true
       /\ n = digits_value digits
       /\ received w = Returns (Py.encode (digits +:+ newline)).
Proof. apply run_returns_inv. Qed.

Lemma returned_status_was_received_witness :
  0 <= 255
  /\ popen_succeeds example_world = true
  /\ accept_outcome example_world = Accepted
  /\ exists digits,
       all_digits digits = true
       /\ 255 = digits_value digits
       /\ received example_world = Returns (Py.encode (digits +:+ newline)).
Proof.
  apply (returned_status_was_received example_world "exit 255"
           ["/"; "boot"] ["build"; "vmtest"] example_state 255).
  vm_compute. reflexivity.
Defined.

Lemma recv_loop_error chunks e rest buf s :
  Forall (fun c => c <> []) chunks ->
  fst (recv_loop (map RecvBytes chunks ++ RecvError e :: rest) buf s)
  = Raises e.
Proof.
  intros Hne. revert buf s.
  induction Hne as [|c chunks Hc _ IH]; intros buf s; [reflexivity|].
  destruct c as [|b c]; [congruence|].
  change (fst (recv_loop (map RecvBytes chunks ++ RecvError e :: rest)
                 (buf ++ b :: c)
                 {| fs := fs s; trace := trace s ++ [EvRecv 4] |})
          = Raises e).
  apply IH.
Qed.

Lemma reaches_handshake_launch w build_dir s :
  reaches_handshake w build_dir s -> reaches_launch w build_dir s.
Proof.
  intros (v & env & s1 & s2 & Hp & He & Hf & _). now exists v, env, s1, s2.
Qed.

(** ** The environment of QEMU *)

Lemma preload_env_preloaded w build_dir :
  shim_preloaded w build_dir (preload_env w build_dir).
Proof.
  unfold shim_preloaded, preload_env. split.
  - rewrite lookup_insert_eq. now destruct (environ w !! "LD_PRELOAD").
  - intros name Hname. now rewrite lookup_insert_ne.
Qed.

(** A run that gets as far as the temporary directory goes on to start
    QEMU. *)
Lemma launch_reaches_popen w command kernel_dir build_dir s :
  reaches_launch w build_dir s ->
  exists argv env,
    In (EvPopen argv env) (run_events w command kernel_dir build_dir s).
Proof.
  intros Hreach.
  destruct (run_in_vm_cases w command kernel_dir build_dir s)
    as (pre & Hpre & [(_ & _ & Hno)|(v & recvs & Hv & Hr & Hev & Hres)]).
  - destruct (Hno Hreach).
  - rewrite Hev. unfold launch_events. eexists _, _.
    rewrite !in_app_iff. right. right. left. cbn [In]. do 5 right. left.
    reflexivity.
Qed.

(** C10.  When the shim is used, the environment given to QEMU is the
    environment of the host with [LD_PRELOAD] set anew: to the path of
    the shim, a colon, and the value [LD_PRELOAD] had before (nothing when
    it was not set).  Every other variable is passed on as it is.  This is
    what lines 190 to 193 compute, it is the environment of every [Popen]
    of the run, and a run that gets as far as the temporary directory
    does call [Popen]. *)
Theorem preload_keeps_environment w command kernel_dir build_dir s qemu_version :
  qemu_version_of w = Some qemu_version ->
  needsTimestampWorkaround qemu_version = true ->
  (forall s1 env,
      fst (qemu_env w qemu_version build_dir s1) = Returns env ->
      shim_preloaded w build_dir env)
  /\ (forall argv env,
         In (EvPopen argv env) (run_events w command kernel_dir build_dir s) ->
         shim_preloaded w build_dir env)
  /\ (reaches_launch w build_dir s ->
      exists argv env,
        In (EvPopen argv env) (run_events w command kernel_dir build_dir s)).
Proof.
  intros Hv Hwa. split; [|split].
  - intros s1 env Henv.
    destruct (qemu_env_build_events w qemu_version build_dir Hv s1)
      as (_ & _ & _ & Hret).
    rewrite (Hret env Henv). unfold qemu_env_of. rewrite Hwa.
    apply preload_env_preloaded.
  - intros argv env Hin.
    destruct (popen_of_run _ _ _ _ _ _ _ Hin)
      as (pre & v & recvs & _ & Hv' & _ & _ & -> & _).
    rewrite Hv in Hv'. injection Hv' as <-.
    unfold qemu_env_of. rewrite Hwa. apply preload_env_preloaded.
  - apply launch_reaches_popen.
Qed.

Lemma preload_keeps_environment_witness :
  exists argv env,
    In (EvPopen argv env)
      (run_events example_world "true" ["/"; "boot"] ["build"; "vmtest"]
         example_state)
    /\ env !! "LD_PRELOAD"
       = Some "build/vmtest/onoatimehack.so:/usr/lib/libfoo.so"
    /\ env !! "PATH" = Some "/usr/bin:/bin".
Proof.
  destruct (preload_keeps_environment example_world "true" ["/"; "boot"]
              ["build"; "vmtest"] example_state [4; 2; 1] eq_refl eq_refl)
    as (_ & Hall & Hpopen).
  destruct (Hpopen (reaches_handshake_launch _ _ _
                      (example_reaches_handshake (recv_script example_world))))
    as (argv & env & Hin).
  exists argv, env. destruct (Hall argv env Hin) as [Hpre Hrest].
  split; [exact Hin|]. split; [exact Hpre|].
  rewrite (Hrest "PATH") by discriminate. vm_compute. reflexivity.
Defined.

(** ** Errors of [recv] *)

(** X17.  An error of [recv] other than a reset of the connection is not
    swallowed: when the peer sends some pieces and then [recv] raises,
    the run raises that very error (no status is made up from what was
    received before), and the connection is closed, QEMU waited for, the
    listening socket closed and the temporary directory removed all the
    same. *)
Theorem recv_error_propagates w command kernel_dir build_dir s chunks e rest :
  reaches_handshake w build_dir s ->
  Forall (fun c => c <> []) chunks ->
  recv_script w = map RecvBytes chunks ++ RecvError e :: rest ->
  fst (run_in_vm w command kernel_dir build_dir s) = Raises e
  /\ exists pre,
       run_events w command kernel_dir build_dir s = pre ++ release_events w.
Proof.
  intros Hreach Hne Hscript.
  pose proof Hreach as (_ & _ & _ & _ & _ & _ & _ & Hp & Ha).
  destruct (run_in_vm_cases w command kernel_dir build_dir s)
    as (pre & Hpre & [(_ & _ & Hno)|(v & recvs & Hv & Hr & Hev & Hres)]).
  - destruct (Hno (reaches_handshake_launch _ _ _ Hreach)).
  - split.
    + rewrite Hres. unfold handshake_result. rewrite Hp, Ha, Hscript.
      now rewrite recv_loop_error.
    + rewrite Hev. unfold handshake_events. rewrite Hp, Ha.
      eexists. unfold release_events. rewrite !app_assoc.
      rewrite <- (app_assoc _ [EvSockClose] [EvPopenWait]).
      rewrite <- (app_assoc _ ([EvSockClose] ++ [EvPopenWait])).
      reflexivity.
Qed.

Lemma recv_error_propagates_witness :
  let w := with_recv_script example_world
             [RecvBytes (Py.encode "25"); RecvError (OSError "EIO")] in
  fst (run_in_vm w "exit 255" ["/"; "boot"] ["build"; "vmtest"] example_state)
  = Raises (OSError "EIO")
  /\ exists pre,
       run_events w "exit 255" ["/"; "boot"] ["build"; "vmtest"] example_state
       = pre ++ release_events w.
Proof.
  apply (recv_error_propagates
           (with_recv_script example_world
              [RecvBytes (Py.encode "25"); RecvError (OSError "EIO")])
           "exit 255" ["/"; "boot"] ["build"; "vmtest"] example_state
           [Py.encode "25"] (OSError "EIO") []).
  - apply example_reaches_handshake.
  - repeat constructor. discriminate.
  - reflexivity.
Defined.

(** ** Where a run writes *)

Lemma launch_events_within w command kernel_dir v env :
  Forall (writes_within_temp w) (launch_events w command kernel_dir v env).
Proof. unfold launch_events. repeat constructor. Qed.

Lemma handshake_events_within w recvs :
  Forall (writes_within_temp w) (handshake_events w recvs).
Proof.
  apply List.Forall_forall. intros e He. apply handshake_events_in in He.
  destruct He as [->|[->|[->|[->| ->]]]]; exact I.
Qed.

Lemma kvm_warning_within w : Forall (writes_within_temp w) (kvm_warning w).
Proof. unfold kvm_warning. destruct (dev_kvm_access w); repeat constructor. Qed.

Lemma writes_within_temp_weaken w build_dir e :
  writes_within_temp w e -> writes_within w build_dir e.
Proof. destruct e; cbn; auto; intros []. Qed.

(** The events of a run but for those of the build are within the
    temporary directory. *)
Lemma run_events_within (P : event -> Prop) w command kernel_dir build_dir s :
  (forall e, build_event w build_dir e -> P e) ->
  (forall e, writes_within_temp w e -> P e) ->
  Forall P (run_events w command kernel_dir build_dir s).
Proof.
  intros Hbuild Htemp.
  assert (Hweak : forall l, Forall (writes_within_temp w) l -> Forall P l)
    by (intros l Hl; eapply Forall_impl; [exact Hl|exact Htemp]).
  destruct (run_in_vm_cases w command kernel_dir build_dir s)
    as (pre & Hpre & [(Hev & _ & _)|(v & recvs & Hv & Hr & Hev & Hres)]).
  - assert (Hall : Forall P (pre ++ kvm_warning w)).
    { apply Forall_app. split; [|apply Hweak, kvm_warning_within].
      eapply Forall_impl; [exact Hpre|exact Hbuild]. }
    destruct Hev as [-> | ->]; [|exact Hall].
    now apply Forall_app in Hall as [Hall _].
  - rewrite Hev. rewrite !Forall_app. repeat split.
    + eapply Forall_impl; [exact Hpre|exact Hbuild].
    + apply Hweak, kvm_warning_within.
    + apply Hweak, launch_events_within.
    + apply Hweak, handshake_events_within.
    + apply Hweak. repeat constructor.
Qed.

(** X18.  A run writes only in its two directories.  Every call of a run
    that makes, changes or removes something in the file system is given
    one of these paths, however the run ends: the build directory
    ([mkdir]); the shim in it (after [-o], for the compiler); the
    temporary directory ([mkdtemp], [rmtree]); the socket in it ([bind]);
    the init script in it, by its resolved name ([open], [chmod]). *)
Theorem run_writes_only_in_its_directories w command kernel_dir build_dir s :
  Forall (writes_within w build_dir)
    (run_events w command kernel_dir build_dir s).
Proof.
  apply run_events_within.
  - intros [] He; try exact I; try destruct He; cbn; tauto.
  - apply writes_within_temp_weaken.
Qed.

(** X19.  With a QEMU that needs no shim a run writes in the temporary
    directory only.  When the version that QEMU reports (if it reports
    one) is at least 5.0.1, the run calls neither [mkdir] nor the
    compiler, and every call that makes, changes or removes something in
    the file system names the temporary directory, the socket in it or
    the init script in it, however the run ends. *)
Theorem new_qemu_writes_in_temp_only w command kernel_dir build_dir s :
  (forall v, qemu_version_of w = Some v -> needsTimestampWorkaround v = false) ->
  Forall (writes_within_temp w) (run_events w command kernel_dir build_dir s).
Proof.
  intros Hnew.
  assert (Hno : ~ shim_needed w).
  { intros (v & Hv & Hneeds). rewrite (Hnew v Hv) in Hneeds. discriminate. }
  apply (run_events_within _ w command kernel_dir build_dir s); [|auto].
  intros [] He; try exact I; try destruct He; cbn in *; tauto.
Qed.

Lemma new_qemu_writes_in_temp_only_witness :
  let w := with_version_output example_world
             (Some "QEMU emulator version 6.2.0 (Debian 1:6.2+dfsg-2)") in
  Forall (writes_within_temp w)
    (run_events w "exit 255" ["/"; "boot"] ["build"; "vmtest"] example_state).
Proof.
  apply (new_qemu_writes_in_temp_only
           (with_version_output example_world
              (Some "QEMU emulator version 6.2.0 (Debian 1:6.2+dfsg-2)"))
           "exit 255" ["/"; "boot"] ["build"; "vmtest"] example_state).
  intros v Hv. vm_compute in Hv. injection Hv as <-. reflexivity.
Defined.

(** ** The build of the shim and the current directory *)

Lemma relative_to_None (p base : Path) :
  ~ base `prefix_of` p -> relative_to p base = None.
Proof.
  revert p. induction base as [|b base IH]; intros p Hno.
  - destruct Hno. apply prefix_nil.
  - destruct p as [|x p]; [reflexivity|]. cbn [relative_to].
    destruct (String.eqb_spec b x) as [->|Hne]; [|reflexivity].
    apply IH. intros Hpre. apply Hno. now apply prefix_cons.
Qed.

Lemma probe_version_returns w s v :
  qemu_version_of w = Some v ->
  probe_version w s
  = (Returns v,
     {| fs := fs s;
        trace := trace s ++ [EvCheckOutput ["qemu-system-x86_64"; "-version"]] |}).
Proof.
  unfold qemu_version_of, probe_version, check_output, bind, emit, lift_option,
    ret, raise.
  destruct (qemu_version_output w) as [out|]; [|discriminate]. cbn.
  destruct (search_version out) as [g|]; [|discriminate]. cbn.
  now intros ->.
Qed.

Lemma old_qemu_elsewhere w command kernel_dir build_dir s v :
  qemu_version_of w = Some v ->
  needsTimestampWorkaround v = true ->
  ~ getcwd w `prefix_of` joinpath (module_dir w) "onoatimehack.c" ->
  exists msg files,
    run_in_vm w command kernel_dir build_dir s
    = (Raises (ValueError msg),
       {| fs := files;
          trace := trace s
                   ++ [EvCheckOutput ["qemu-system-x86_64"; "-version"];
                       EvMkdir build_dir] |}).
Proof.
  intros Hv Hold Hcwd. unfold run_in_vm, bind at 1.
  rewrite (probe_version_returns w s v Hv).
  unfold bind at 1, qemu_env. rewrite Hold.
  unfold _build_onoatimehack. rewrite (relative_to_None _ _ Hcwd).
  unfold mkdir_parents, lift_option, bind, emit, get_fs, set_fs, raise.
  cbn [fst snd fs trace]. rewrite <- app_assoc. eexists _, _. reflexivity.
Qed.

(** X20.  With a QEMU older than 5.0.1 the current directory has to be
    the directory of the module or one above it.  Otherwise
    [relative_to] on line 157 raises and the run ends with that
    [ValueError]: the version was queried and the build directory made,
    and nothing else was done (no compiler, no temporary directory, no
    QEMU). *)
Theorem old_qemu_needs_cwd_above_module w command kernel_dir build_dir s v :
  qemu_version_of w = Some v ->
  needsTimestampWorkaround v = true ->
  ~ getcwd w `prefix_of` joinpath (module_dir w) "onoatimehack.c" ->
  (exists msg,
      fst (run_in_vm w command kernel_dir build_dir s) = Raises (ValueError msg))
  /\ run_events w command kernel_dir build_dir s
     = [EvCheckOutput ["qemu-system-x86_64"; "-version"]; EvMkdir build_dir].
Proof.
  intros Hv Hold Hcwd.
  destruct (old_qemu_elsewhere w command kernel_dir build_dir s v Hv Hold Hcwd)
    as (msg & files & H).
  unfold run_events. rewrite H. cbn [fst snd trace]. split; [eauto|].
  apply drop_app_length.
Qed.

Lemma old_qemu_needs_cwd_above_module_witness :
  let w := {| qemu_version_output := Some "QEMU emulator version 4.2.1";
              qemu_installed := true;
              environ := ∅;
              getcwd := ["/"; "home"; "user"];
              module_dir := ["/"; "src"; "drgn"; "vmtest"];
              dev_kvm_access := true;
              nproc := 4;
              cc_succeeds := true;
              now := 100;
              mkdtemp := ["/"; "tmp"; "drgn-vmtest-k3x9"];
              resolve := fun p => p;
              popen_succeeds := true;
              accept_outcome := Accepted;
              recv_script := [] |} in
  (exists msg,
      fst (run_in_vm w "true" ["/"; "boot"] ["build"; "vmtest"] example_state)
      = Raises (ValueError msg))
  /\ run_events w "true" ["/"; "boot"] ["build"; "vmtest"] example_state
     = [EvCheckOutput ["qemu-system-x86_64"; "-version"];
        EvMkdir ["build"; "vmtest"]].
Proof.
  intros w.
  apply (old_qemu_needs_cwd_above_module w "true" ["/"; "boot"]
           ["build"; "vmtest"] example_state [4; 2; 1]).
  - reflexivity.
  - reflexivity.
  - intros [k Hk]. discriminate Hk.
Defined.

(** ** Pieces *)

(** X21.  Only the bytes count, not the pieces they come in: two runs
    that reach the hand-shake and receive the same bytes before the
    connection is closed end alike (with the same status or the same
    error), however the bytes are cut into pieces, whatever the command,
    the kernel and the rest of the host are. *)
Theorem result_depends_on_bytes_only
    w1 w2 command1 command2 kernel_dir1 kernel_dir2 build_dir1 build_dir2
    s1 s2 chunks1 chunks2 :
  reaches_handshake w1 build_dir1 s1 ->
  reaches_handshake w2 build_dir2 s2 ->
  sends_then_closes chunks1 (recv_script w1) ->
  sends_then_closes chunks2 (recv_script w2) ->
  concat chunks1 = concat chunks2 ->
  fst (run_in_vm w1 command1 kernel_dir1 build_dir1 s1)
  = fst (run_in_vm w2 command2 kernel_dir2 build_dir2 s2).
Proof.
  intros H1 H2 C1 C2 Heq.
  rewrite (run_in_vm_received _ _ _ _ _ _ H1 C1).
  rewrite (run_in_vm_received _ _ _ _ _ _ H2 C2).
  now rewrite Heq.
Qed.

Lemma result_depends_on_bytes_only_witness :
  fst (run_in_vm
         (with_recv_script example_world
            [RecvBytes (Py.encode "1"); RecvBytes (Py.encode "2");
             RecvBytes (Py.encode newline); RecvBytes []])
         "exit 12" ["/"; "boot"] ["build"; "vmtest"] example_state)
  = fst (run_in_vm
           (with_recv_script example_world
              [RecvBytes (Py.encode ("12" +:+ newline)); RecvBytes []])
           "sh -i" ["."] ["build"; "vmtest"] example_state).
Proof.
  apply (result_depends_on_bytes_only _ _ _ _ _ _ _ _ _ _
           [Py.encode "1"; Py.encode "2"; Py.encode newline]
           [Py.encode ("12" +:+ newline)]).
  - apply example_reaches_handshake.
  - apply example_reaches_handshake.
  - split; [repeat constructor; discriminate|]. exists []. reflexivity.
  - split; [repeat constructor; discriminate|]. exists []. reflexivity.
  - reflexivity.
Defined.

(** ** Quoting and splitting *)

Lemma shlex_safe_plain c :
  shlex_safe c = true ->
  shlex_whitespace c = false
  /\ Ascii.eqb c Py.backslash = false
  /\ shlex_is_quote c = false.
Proof.
  destruct c as [[] [] [] [] [] [] [] []]; vm_compute; intros H;
    try discriminate H; repeat split.
Qed.

Lemma shlex_read_safe s t token quoted tokens :
  forallb shlex_safe (list_ascii_of_string s) = true ->
  shlex_read (s +:+ t) ShWord token quoted tokens
  = shlex_read t ShWord (token +:+ s) quoted tokens.
Proof.
  revert token. induction s as [|c s IH]; intros token Hs.
  - now rewrite string_app_nil_r.
  - cbn [list_ascii_of_string forallb] in Hs.
    apply andb_true_iff in Hs as [Hc Hs].
    destruct (shlex_safe_plain c Hc) as (Hw & Hb & Hq).
    app_cons. cbn [shlex_read]. rewrite Hw, Hq, Hb.
    rewrite (IH _ Hs). now rewrite string_app_assoc.
Qed.

Lemma shlex_read_escaped s t token quoted tokens :
  shlex_read (shlex_escape s +:+ String Py.squote t) (ShQuote Py.squote)
    token quoted tokens
  = shlex_read t ShWord (token +:+ s) true tokens.
Proof.
  revert token quoted. induction s as [|c s IH]; intros token quoted.
  - cbn [shlex_escape]. app_cons. cbn [shlex_read].
    rewrite Ascii.eqb_refl. now rewrite string_app_nil_r.
  - cbn [shlex_escape]. destruct (Ascii.eqb_spec c Py.squote) as [->|Hne].
    + app_cons. cbn [shlex_read].
      rewrite Ascii.eqb_refl.
      change (shlex_whitespace Py.dquote) with false.
      change (shlex_is_quote Py.dquote) with true.
      change (Ascii.eqb Py.squote Py.dquote) with false.
      change (Ascii.eqb Py.squote Py.backslash) with false.
      change (Ascii.eqb Py.dquote Py.dquote) with true.
      change (shlex_whitespace Py.squote) with false.
      change (shlex_is_quote Py.squote) with true.
      cbv beta iota. cbn [andb].
      rewrite IH. now rewrite string_app_assoc.
    + app_cons. cbn [shlex_read].
      destruct (Ascii.eqb_spec c Py.squote) as [|_]; [contradiction|].
      change (Ascii.eqb Py.squote Py.dquote) with false.
      rewrite andb_false_r. rewrite IH. now rewrite string_app_assoc.
Qed.

(** One quoted word at the start of the input, followed by the end of the
    input or by a space. *)
Lemma shlex_read_quoted x t tokens :
  shlex_read (shlex_quote x +:+ t) ShWhitespace "" false tokens
  = match t with
    | EmptyString => Some (tokens ++ [x])
    | String c t' =>
        if Ascii.eqb c " "
        then shlex_read t' ShWhitespace "" false (tokens ++ [x])
        else shlex_read (shlex_quote x +:+ t) ShWhitespace "" false tokens
    end.
Proof.
  assert (Hend : forall token quoted,
             shlex_is_eof token quoted = false ->
             shlex_read t ShWord token quoted tokens
             = match t with
               | EmptyString => Some (tokens ++ [token])
               | String c t' =>
                   if Ascii.eqb c " "
                   then shlex_read t' ShWhitespace "" false (tokens ++ [token])
                   else shlex_read t ShWord token quoted tokens
               end).
  { intros token quoted Heof. destruct t as [|c t']; cbn [shlex_read].
    - now rewrite Heof.
    - destruct (Ascii.eqb_spec c " ") as [->|]; [|reflexivity].
      change (shlex_whitespace " ") with true. cbv beta iota.
      now rewrite Heof. }
  assert (Hquoted :
            shlex_read (String Py.squote (shlex_escape x +:+ String Py.squote "")
                        +:+ t) ShWhitespace "" false tokens
            = shlex_read t ShWord x true tokens).
  { app_cons. cbn [shlex_read].
    change (shlex_whitespace Py.squote) with false.
    change (Ascii.eqb Py.squote Py.backslash) with false.
    change (shlex_is_quote Py.squote) with true. cbv beta iota.
    rewrite string_app_assoc. app_cons.
    now rewrite shlex_read_escaped. }
  destruct t as [|c t'] eqn:Et.
  - unfold shlex_quote. destruct x as [|a x'] eqn:Ex.
    + reflexivity.
    + rewrite <- Ex in *.
      destruct (forallb shlex_safe (list_ascii_of_string x)) eqn:Hsafe.
      * rewrite Ex. rewrite Ex in Hsafe.
        cbn [list_ascii_of_string forallb] in Hsafe.
        apply andb_true_iff in Hsafe as [Ha Hx'].
        destruct (shlex_safe_plain a Ha) as (Hw & Hb & Hq).
        app_cons. cbn [shlex_read]. rewrite Hw, Hb, Hq.
        rewrite (shlex_read_safe x' "" _ _ _ Hx'). app_cons.
        apply (Hend (String a x') false). reflexivity.
      * rewrite Hquoted. apply (Hend x true). reflexivity.
  - destruct (Ascii.eqb_spec c " ") as [->|]; [|reflexivity].
    unfold shlex_quote. destruct x as [|a x'] eqn:Ex.
    + reflexivity.
    + rewrite <- Ex in *.
      destruct (forallb shlex_safe (list_ascii_of_string x)) eqn:Hsafe.
      * rewrite Ex. rewrite Ex in Hsafe.
        cbn [list_ascii_of_string forallb] in Hsafe.
        apply andb_true_iff in Hsafe as [Ha Hx'].
        destruct (shlex_safe_plain a Ha) as (Hw & Hb & Hq).
        app_cons. cbn [shlex_read]. rewrite Hw, Hb, Hq.
        rewrite (shlex_read_safe x' _ _ _ _ Hx'). app_cons.
        now rewrite (Hend (String a x') false eq_refl).
      * rewrite Hquoted. now rewrite (Hend x true eq_refl).
Qed.

Lemma shlex_read_line cmd tokens :
  shlex_read (compile_line cmd) ShWhitespace "" false tokens
  = Some (tokens ++ cmd).
Proof.
  unfold compile_line. revert tokens.
  induction cmd as [|x cmd IH]; intros tokens.
  - cbn. now rewrite app_nil_r.
  - destruct cmd as [|y cmd].
    + cbn [map String.concat].
      rewrite <- (string_app_nil_r (shlex_quote x)).
      now rewrite shlex_read_quoted.
    + change (String.concat " " (map shlex_quote (x :: y :: cmd)))
        with (shlex_quote x
              +:+ String " " (String.concat " " (map shlex_quote (y :: cmd)))).
      rewrite shlex_read_quoted. cbv beta iota.
      change (Ascii.eqb " " " ") with true. cbv beta iota.
      rewrite IH. now rewrite <- app_assoc.
Qed.

(** The printed line of a command can be read back: for
    every list of arguments, whatever they contain (spaces, quotes,
    backslashes, newlines, nothing at all), splitting the printed line as
    [shlex.split] does, which is how [_compile] reads its flags, gives
    exactly the arguments again. *)
Lemma printed_line_reads_back cmd :
  shlex_split (compile_line cmd) = Some cmd.
Proof. unfold shlex_split. now rewrite shlex_read_line. Qed.

(** X22.  The command line that [_compile] prints can be read back: for
    every list of arguments, whatever they contain (spaces, quotes,
    backslashes, newlines, nothing at all), splitting the printed line as
    [shlex.split] does, which is how [_compile] reads its flags, gives
    exactly the arguments again. *)
Theorem printed_command_reads_back cmd :
  shlex_split (compile_line cmd) = Some cmd.
Proof. apply printed_line_reads_back. Qed.

(** X23.  The command and the directory reach the shell of the guest as
    one word each, whatever they contain: read as [shlex.split] reads,
    line 118 of the init script that a run writes is the three words
    [sh], [-c] and the command, and line 116 is [cd] and the current
    directory. *)
Theorem guest_lines_are_words w command :
  shlex_split (init_command_line (init_args_of w command))
  = Some ["sh"; "-c"; command]
  /\ shlex_split (init_cd_line (init_args_of w command))
     = Some ["cd"; path_str (getcwd w)].
Proof.
  split.
  - apply (printed_line_reads_back ["sh"; "-c"; command]).
  - apply (printed_line_reads_back ["cd"; path_str (getcwd w)]).
Qed.

(** ** The entry point *)

(** X24.  The exit status of the program.  The program exits with the
    status that the guest reported (never a negative one) and prints
    nothing more; or, exactly when [run_in_vm] raised [LostVMError], with
    the status given by [--lost-status], after printing [error: ] and
    the message, and then QEMU had been started.  Every other error of
    [run_in_vm] is passed on as it is, and a [LostVMError] never is. *)
Theorem main_exit_status w kernel_dir args s :
  let run := fst (run_in_vm w (main_command (args_command args)) kernel_dir
                    (args_directory args) s) in
  match fst (main_run w kernel_dir args s) with
  | Returns (status, None) => run = Returns status /\ 0 <= status
  | Returns (status, Some printed) =>
      status = args_lost_status args
      /\ popen_succeeds w = true
      /\ exists msg, run = Raises (LostVMError msg)
                     /\ printed = "error: " +:+ msg +:+ newline
  | Raises e => run = Raises e /\ is_LostVMError e = false
  end.
Proof.
  intros run. unfold main_run. subst run.
  pose proof (run_returns_inv w (main_command (args_command args)) kernel_dir
                (args_directory args) s) as Hret.
  pose proof (run_lost_inv w (main_command (args_command args)) kernel_dir
                (args_directory args) s) as Hlost.
  destruct (run_in_vm w (main_command (args_command args)) kernel_dir
              (args_directory args) s) as [[status|e] s'];
    cbn [fst] in *.
  - split; [reflexivity|]. now destruct (Hret status eq_refl).
  - destruct e as [msg|msg|cmd|msg|msg]; cbn [fst]; try (split; reflexivity).
    destruct (Hlost msg eq_refl) as [Hp _]. eauto 10.
Qed.





(** X26.  The words of the command line are joined without quoting: a
    word with a space in it gives the same command as the two words on
    either side of the space, so its boundaries are lost before the
    command reaches the guest; and with no words the command is
    [sh -i]. *)
Theorem command_words_are_joined_unquoted :
  (forall a b rest,
      main_command ((a +:+ " " +:+ b) :: rest) = main_command (a :: b :: rest))
  /\ main_command [] = "sh -i".
Proof.
  split; [|reflexivity]. intros a b rest. unfold main_command.
  destruct rest as [|c rest].
  - reflexivity.
  - cbn [String.concat]. now rewrite !string_app_assoc.
Qed.

(** ** The device nodes of the guest *)

Lemma sh_before_colon_app major rest :
  has_colon major = false ->
  sh_before_colon (major +:+ String ":" rest) = major.
Proof.
  unfold has_colon. induction major as [|c major IH]; intros H.
  - reflexivity.
  - cbn [list_ascii_of_string existsb] in H.
    apply orb_false_iff in H as [Hc H].
    app_cons. cbn [sh_before_colon]. rewrite Ascii.eqb_sym, Hc.
    now rewrite IH.
Qed.

Lemma has_colon_app a b : has_colon (a +:+ b) = has_colon a || has_colon b.
Proof.
  unfold has_colon. now rewrite list_ascii_of_string_app, existsb_app.
Qed.

Lemma sh_after_colon_none minor :
  has_colon minor = false -> sh_after_colon minor = minor.
Proof.
  destruct minor as [|c minor]; [reflexivity|]. unfold has_colon.
  cbn [list_ascii_of_string existsb sh_after_colon]. intros H.
  apply orb_false_iff in H as [Hc H]. unfold has_colon. rewrite H.
  now rewrite Ascii.eqb_sym, Hc.
Qed.

Lemma sh_after_colon_app major minor :
  has_colon minor = false ->
  sh_after_colon (major +:+ String ":" minor) = minor.
Proof.
  intros Hminor. induction major as [|c major IH].
  - app_cons. cbn [sh_after_colon]. now rewrite Hminor.
  - app_cons. cbn [sh_after_colon]. rewrite has_colon_app.
    assert (H : has_colon (String ":" minor) = true) by reflexivity.
    rewrite H, orb_true_r. exact IH.
Qed.

Lemma strip_suffix_refl s : strip_suffix s s = Some "".
Proof. destruct s; cbn [strip_suffix]; now rewrite String.eqb_refl. Qed.

Lemma sh_strip_suffix_char t dev :
  sh_strip_suffix (String t dev) dev = String t "".
Proof.
  unfold sh_strip_suffix. cbn [strip_suffix].
  destruct (String.eqb_spec (String t dev) dev) as [Heq|_].
  - apply (f_equal String.length) in Heq. cbn in Heq. lia.
  - now rewrite strip_suffix_refl.
Qed.

(** X27.  The init script takes the device numbers apart as they are
    written: for a third field of a line of [modules.devname] that is one
    type character, the major number, a colon and the minor number (with
    no further colon), the expansions of lines 81 to 84 give [mknod] the
    type character, the major number and the minor number. *)
Theorem devname_fields_of_node t major minor :
  has_colon major = false ->
  has_colon minor = false ->
  devname_fields (String t (major +:+ ":" +:+ minor))
  = (String t "", major, minor).
Proof.
  intros Hmajor Hminor. unfold devname_fields. cbn [sh_drop_char].
  rewrite sh_strip_suffix_char. app_cons.
  now rewrite sh_before_colon_app, sh_after_colon_app.
Qed.

Lemma devname_fields_of_node_witness :
  devname_fields (String "c" ("10" +:+ ":" +:+ "229")) = ("c", "10", "229").
Proof.
  apply (devname_fields_of_node "c" "10" "229"); reflexivity.
Defined.
